(** * Session server of the two-player combat game: model and verification

    Shallow embedding of [server.js].  The server keeps two process-wide
    registries ([rooms], keyed by room code, and [players], keyed by socket
    id), answers socket messages one handler at a time, and owns one kind of
    autonomous activity: the countdown interval created by [startGame].

    Modelling choices, all read off the source:
    - a JavaScript [Map] iterates in insertion order, and the code depends on
      that order (matchmaking scan, spawn placement, [lastAlivePlayer]), so
      maps are association lists with the update discipline of [Map.set];
    - room objects are shared by reference between the [rooms] registry and
      the closures of running intervals, so rooms live in a [heap] and both
      the registry and the timers hold indices into it;
    - [generateRoomCode] and [generatePlayerId] draw on [Math.random] and
      [Date.now]; their results are supplied to a handler as an oracle;
    - every [emit] is recorded with its addressing mode ([socket.emit],
      [io.to(room)], [socket.to(room)]);
    - numbers carried by the protocol are integers ([Z]). *)

From Stdlib Require Import ZArith List String Bool Lia PeanoNat.
Import ListNotations.

Local Open Scope string_scope.
Local Open Scope Z_scope.
Local Open Scope list_scope.

(** ** Insertion-ordered maps with string keys (JavaScript [Map]) *)

Module OMap.
Section Defs.
Context {V : Type}.

Definition t := list (string * V).

Definition empty : t := [].

Fixpoint get (k : string) (m : t) : option V :=
  match m with
  | [] => None
  | (k', v) :: m' => if String.eqb k k' then Some v else get k m'
  end.

Definition has (k : string) (m : t) : bool :=
  match get k m with Some _ => true | None => false end.

(** [Map.set]: an existing key keeps its position, a new key goes last. *)
Fixpoint set (k : string) (v : V) (m : t) : t :=
  match m with
  | [] => [(k, v)]
  | (k', v') :: m' =>
      if String.eqb k k' then (k, v) :: m' else (k', v') :: set k v m'
  end.

Definition delete (k : string) (m : t) : t :=
  filter (fun kv => negb (String.eqb k (fst kv))) m.

Definition size (m : t) : nat := List.length m.

Definition values (m : t) : list V := map snd m.

Definition keys (m : t) : list string := map fst m.
End Defs.
Arguments t : clear implicits.
End OMap.

(** ** Data model *)

Module Shield.
Record t := mk { active : bool; angle : option Z }.
End Shield.

Module Sword.
Record t := mk { active : bool; isSwinging : bool; swingAngle : option Z }.
End Sword.

Module Hitbox.
Record t := mk { visible : bool; x : Z; y : Z; angle : Z }.
End Hitbox.

(** A player object.  [velocityX], [velocityY], [shield], [sword] and
    [swordHitbox] are absent ([None]) until a handler assigns them. *)
Module Player.
Record t := mk {
  id : string;
  name : string;
  socketId : string;
  x : Z;
  y : Z;
  velocityX : option Z;
  velocityY : option Z;
  health : Z;
  isDead : bool;
  shield : option Shield.t;
  sword : option Sword.t;
  swordHitbox : option Hitbox.t
}.

(** The object literal used by createRoom, joinRandomRoom, joinGame and
    joinRoom. *)
Definition fresh (pid pname sid : string) : t :=
  mk pid pname sid 0 0 None None 100 false None None None.

Definition set_xy (nx ny : Z) (p : t) : t :=
  mk (id p) (name p) (socketId p) nx ny (velocityX p) (velocityY p)
     (health p) (isDead p) (shield p) (sword p) (swordHitbox p).

Definition set_health (h : Z) (p : t) : t :=
  mk (id p) (name p) (socketId p) (x p) (y p) (velocityX p) (velocityY p)
     h (isDead p) (shield p) (sword p) (swordHitbox p).

Definition set_isDead (d : bool) (p : t) : t :=
  mk (id p) (name p) (socketId p) (x p) (y p) (velocityX p) (velocityY p)
     (health p) d (shield p) (sword p) (swordHitbox p).

Definition set_shield (sh : option Shield.t) (p : t) : t :=
  mk (id p) (name p) (socketId p) (x p) (y p) (velocityX p) (velocityY p)
     (health p) (isDead p) sh (sword p) (swordHitbox p).

Definition set_sword (sw : option Sword.t) (p : t) : t :=
  mk (id p) (name p) (socketId p) (x p) (y p) (velocityX p) (velocityY p)
     (health p) (isDead p) (shield p) sw (swordHitbox p).

Definition set_swordHitbox (hb : option Hitbox.t) (p : t) : t :=
  mk (id p) (name p) (socketId p) (x p) (y p) (velocityX p) (velocityY p)
     (health p) (isDead p) (shield p) (sword p) hb.

(** The seven assignments of the playerState handler. *)
Definition overwrite (nx ny : Z) (vx vy : option Z) (h : Z) (d : bool)
    (sh : option Shield.t) (p : t) : t :=
  mk (id p) (name p) (socketId p) nx ny vx vy h d sh (sword p) (swordHitbox p).
End Player.

(** A room object.  [gameLoop] is [null] in createRoom, absent in
    joinRandomRoom, and never assigned afterwards: [None] stands for both. *)
Module Room.
Record t := mk {
  code : string;
  players : OMap.t Player.t;
  gameStarted : bool;
  countdown : Z;
  gameLoop : option nat
}.

Definition set_players (ps : OMap.t Player.t) (r : t) : t :=
  mk (code r) ps (gameStarted r) (countdown r) (gameLoop r).

Definition set_gameStarted (b : bool) (r : t) : t :=
  mk (code r) (players r) b (countdown r) (gameLoop r).
End Room.

(** An entry of the [players] registry: the binding of a socket. *)
Module Binding.
Record t := mk { playerId : string; roomCode : string }.
End Binding.

(** A running [setInterval] of [startGame]: the room object its closure
    captured, the closure's local [countdown], and how many times
    [clearInterval] was called on it.  A cleared interval never fires. *)
Module Timer.
Record t := mk { room : nat; countdown : Z; cleared : nat }.
End Timer.

(** ** Outbound events *)

(** One entry of the object built by [getPlayersState]. *)
Module View.
Record t := mk {
  name : string;
  x : Z;
  y : Z;
  velocityX : option Z;
  velocityY : option Z;
  health : Z;
  isDead : bool;
  shield : Shield.t;
  sword : Sword.t;
  swordHitbox : Hitbox.t
}.
End View.

Inductive Event :=
| EvRoomCreated (roomCode playerId : string)
| EvRoomJoined (roomCode playerId : string)
| EvRoomNotFound
| EvRoomFull
| EvError (text : string)
| EvGameState (players : list (string * View.t)) (gameStarted : bool) (countdown : Z)
| EvPlayerUpdate (playerId : string) (mouseX mouseY : Z)
| EvSwordSwing (playerId : string) (hitbox : option Hitbox.t)
| EvSwordRelease (playerId : string)
| EvPlayerHit (playerId attackerId : string) (damage : Z)
| EvGameOver (winnerId loserId : string)
| EvPlayerRespawn (playerId : string)
| EvPlayerDisconnected (playerId playerName : string)
| EvCountdown (n : Z).

(** Addressing of an emit: [socket.emit], [io.to(code).emit],
    [socket.to(code).emit]. *)
Inductive Target :=
| ToSocket (sid : string)
| ToRoom (code : string)
| ToOthers (sid code : string).

Definition Out := (Target * Event)%type.

(** ** Inbound messages *)

Inductive Msg :=
| CreateRoom (playerName : string)
| JoinRandomRoom (playerName : string)
| JoinRoom (playerName roomCode : string)
| JoinGame (playerId playerName roomCode : string)
| PlayerState (roomCode playerId : string) (x y : Z) (velocityX velocityY : option Z)
    (health : Z) (isDead : bool) (shield : option Shield.t)
| PlayerUpdate (roomCode playerId : string) (mouseX mouseY : Z)
| SwordSwing (roomCode playerId : string) (hitbox : option Hitbox.t)
| SwordRelease (roomCode playerId : string)
| PlayerHit (roomCode targetId attackerId : string)
| PlayerDied (roomCode playerId : string)
| PlayerRespawn (roomCode playerId : string)
| Disconnect.

(** What [generateRoomCode] and [generatePlayerId] return when the handler
    calls them. *)
Record Rand := mkRand { generateRoomCode : string; generatePlayerId : string }.

(** ** Server state *)

Record State := mkState {
  heap : list Room.t;
  rooms : OMap.t nat;
  players : OMap.t Binding.t;
  joined : list (string * string);
  timers : list Timer.t
}.

Definition init : State := mkState [] [] [] [] [].

Fixpoint upd_nth {A : Type} (n : nat) (a : A) (l : list A) : list A :=
  match l, n with
  | [], _ => []
  | _ :: l', O => a :: l'
  | b :: l', S n' => b :: upd_nth n' a l'
  end.

(** [rooms.get(code)]: the room object and its identity. *)
Definition rooms_get (s : State) (code : string) : option (nat * Room.t) :=
  match OMap.get code (rooms s) with
  | None => None
  | Some ref =>
      match nth_error (heap s) ref with
      | None => None
      | Some r => Some (ref, r)
      end
  end.

(** Mutation of the room object [ref] in place. *)
Definition put_room (ref : nat) (r : Room.t) (s : State) : State :=
  mkState (upd_nth ref r (heap s)) (rooms s) (players s) (joined s) (timers s).

Definition set_rooms (rs : OMap.t nat) (s : State) : State :=
  mkState (heap s) rs (players s) (joined s) (timers s).

Definition set_players (ps : OMap.t Binding.t) (s : State) : State :=
  mkState (heap s) (rooms s) ps (joined s) (timers s).

Definition set_timers (ts : list Timer.t) (s : State) : State :=
  mkState (heap s) (rooms s) (players s) (joined s) ts.

Definition pair_eqb (a b : string * string) : bool :=
  String.eqb (fst a) (fst b) && String.eqb (snd a) (snd b).

(** [socket.join(code)]. *)
Definition socket_join (sid code : string) (s : State) : State :=
  mkState (heap s) (rooms s) (players s)
    (if existsb (pair_eqb (sid, code)) (joined s) then joined s
     else joined s ++ [(sid, code)])
    (timers s).

(** A closing socket leaves every group it had joined. *)
Definition socket_leaveAll (sid : string) (s : State) : State :=
  mkState (heap s) (rooms s) (players s)
    (filter (fun e => negb (String.eqb sid (fst e))) (joined s))
    (timers s).

(** The sockets an emit reaches. *)
Definition recipients (s : State) (t : Target) : list string :=
  match t with
  | ToSocket sid => [sid]
  | ToRoom code =>
      map fst (filter (fun e => String.eqb code (snd e)) (joined s))
  | ToOthers sid code =>
      map fst (filter (fun e => String.eqb code (snd e) && negb (String.eqb sid (fst e)))
                 (joined s))
  end.


(** ** Helpers of the server: [getPlayersState], [broadcastGameState] *)

Definition default_shield : Shield.t := Shield.mk true (Some 0).
Definition default_sword : Sword.t := Sword.mk false false (Some 0).
Definition default_hitbox : Hitbox.t := Hitbox.mk false 0 0 0.

(** [v || d] on an object-or-undefined value. *)
Definition or_default {A : Type} (v : option A) (d : A) : A :=
  match v with Some a => a | None => d end.

Definition view_of (p : Player.t) : View.t :=
  View.mk (Player.name p) (Player.x p) (Player.y p)
    (Player.velocityX p) (Player.velocityY p)
    (Player.health p) (Player.isDead p)
    (or_default (Player.shield p) default_shield)
    (or_default (Player.sword p) default_sword)
    (or_default (Player.swordHitbox p) default_hitbox).

Definition getPlayersState (room : Room.t) : list (string * View.t) :=
  map (fun kv => (fst kv, view_of (snd kv))) (Room.players room).

Definition gameState_of (room : Room.t) : Event :=
  EvGameState (getPlayersState room) (Room.gameStarted room) (Room.countdown room).

Definition broadcastGameState (room : Room.t) : list Out :=
  [(ToRoom (Room.code room), gameState_of room)].

(** The survivor loop shared by playerHit and playerDied: the number of
    players whose [isDead] is false, and the last such player. *)
Definition countAlive (ps : list Player.t) : nat * option Player.t :=
  fold_left
    (fun acc p =>
       if Player.isDead p then acc else (S (fst acc), Some p))
    ps (O, None).

(** The [if (alivePlayers === 1 && lastAlivePlayer)] block: the gameOver
    emit and [room.gameStarted = false]. *)
Definition checkGameOver (roomCode loserId : string) (room : Room.t)
  : Room.t * list Out :=
  match countAlive (OMap.values (Room.players room)) with
  | (1%nat, Some last) =>
      (Room.set_gameStarted false room,
       [(ToRoom roomCode, EvGameOver (Player.id last) loserId)])
  | _ => (room, [])
  end.

(** ** [startGame] and the interval callback *)

Definition startGame (ref : nat) (room : Room.t) (s : State) : State :=
  let s1 := put_room ref (Room.set_gameStarted true room) s in
  set_timers (timers s1 ++ [Timer.mk ref 3 0]) s1.

(** The spawn loop: [i === 0 ? 250 : 750], [y = 300], [i++]. *)
Fixpoint place (i : nat) (ps : OMap.t Player.t) : OMap.t Player.t :=
  match ps with
  | [] => []
  | (k, p) :: ps' =>
      (k, Player.set_xy (match i with O => 250 | S _ => 750 end) 300 p)
        :: place (S i) ps'
  end.

(** One firing of interval [tid]. *)
Definition tick (tid : nat) (s : State) : State * list Out :=
  match nth_error (timers s) tid with
  | None => (s, [])
  | Some t =>
      match Timer.cleared t, nth_error (heap s) (Timer.room t) with
      | O, Some room =>
          let ev := [(ToRoom (Room.code room), EvCountdown (Timer.countdown t))] in
          if Timer.countdown t =? 0 then
            let room' := Room.set_players (place 0 (Room.players room)) room in
            let s1 := put_room (Timer.room t) room' s in
            let t' := Timer.mk (Timer.room t) (Timer.countdown t - 1) (S (Timer.cleared t)) in
            (set_timers (upd_nth tid t' (timers s1)) s1,
             ev ++ broadcastGameState room')
          else
            let t' := Timer.mk (Timer.room t) (Timer.countdown t - 1) (Timer.cleared t) in
            (set_timers (upd_nth tid t' (timers s)) s, ev)
      | _, _ => (s, [])
      end
  end.

(** ** Message handlers *)

Definition joinRoom (sid : string) (rnd : Rand) (playerName roomCode : string)
    (s : State) : State * list Out :=
  match rooms_get s roomCode with
  | None => (s, [(ToSocket sid, EvRoomNotFound)])
  | Some (ref, room) =>
      if (2 <=? OMap.size (Room.players room))%nat then
        (s, [(ToSocket sid, EvRoomFull)])
      else
        let playerId := generatePlayerId rnd in
        let room' :=
          Room.set_players
            (OMap.set playerId (Player.fresh playerId playerName sid) (Room.players room))
            room in
        let s1 := put_room ref room' s in
        let s2 := set_players (OMap.set sid (Binding.mk playerId roomCode) (players s1)) s1 in
        (socket_join sid roomCode s2,
         [(ToSocket sid, EvRoomJoined roomCode playerId)])
  end.

(** The room literal of createRoom and joinRandomRoom with its first
    player, registered under a generated code. *)
Definition openRoom (sid : string) (rnd : Rand) (playerName : string)
    (s : State) : State :=
  let roomCode := generateRoomCode rnd in
  let playerId := generatePlayerId rnd in
  let room :=
    Room.mk roomCode
      (OMap.set playerId (Player.fresh playerId playerName sid) OMap.empty)
      false 3 None in
  let ref := List.length (heap s) in
  socket_join sid roomCode
    (mkState (heap s ++ [room])
       (OMap.set roomCode ref (rooms s))
       (OMap.set sid (Binding.mk playerId roomCode) (players s))
       (joined s) (timers s)).

Definition on_createRoom (sid : string) (rnd : Rand) (playerName : string)
    (s : State) : State * list Out :=
  (openRoom sid rnd playerName s,
   [(ToSocket sid, EvRoomCreated (generateRoomCode rnd) (generatePlayerId rnd))]).

(** The scan of joinRandomRoom: the first registered room with exactly one
    player and [gameStarted] false. *)
Fixpoint findOpenRoom (hp : list Room.t) (rs : OMap.t nat) : option string :=
  match rs with
  | [] => None
  | (roomCode, ref) :: rs' =>
      match nth_error hp ref with
      | Some room =>
          if (OMap.size (Room.players room) =? 1)%nat && negb (Room.gameStarted room)
          then Some roomCode
          else findOpenRoom hp rs'
      | None => findOpenRoom hp rs'
      end
  end.

Definition on_joinRandomRoom (sid : string) (rnd : Rand) (playerName : string)
    (s : State) : State * list Out :=
  match findOpenRoom (heap s) (rooms s) with
  | Some roomCode => joinRoom sid rnd playerName roomCode s
  | None =>
      (openRoom sid rnd playerName s,
       [(ToSocket sid, EvRoomJoined (generateRoomCode rnd) (generatePlayerId rnd))])
  end.

(** The block of joinGame commented [Add player to room if not already
    there]. *)
Definition addIfAbsent (sid playerId playerName : string) (room : Room.t) : Room.t :=
  if OMap.has playerId (Room.players room) then room
  else Room.set_players
         (OMap.set playerId (Player.fresh playerId playerName sid) (Room.players room))
         room.

Definition on_joinGame (sid playerId playerName roomCode : string) (s : State)
  : State * list Out :=
  match rooms_get s roomCode with
  | None => (s, [(ToSocket sid, EvError "Room not found")])
  | Some (ref, room) =>
      let room' := addIfAbsent sid playerId playerName room in
      let s1 := put_room ref room' s in
      let s2 := set_players (OMap.set sid (Binding.mk playerId roomCode) (players s1)) s1 in
      let s3 := socket_join sid roomCode s2 in
      let ev := broadcastGameState room' in
      if (OMap.size (Room.players room') =? 2)%nat && negb (Room.gameStarted room')
      then (startGame ref room' s3, ev)
      else (s3, ev)
  end.

(** The common shape of the per-player handlers: look the room up, then the
    player; do nothing when either is missing. *)
Definition with_player (roomCode playerId : string) (s : State)
    (k : nat -> Room.t -> Player.t -> State * list Out) : State * list Out :=
  match rooms_get s roomCode with
  | None => (s, [])
  | Some (ref, room) =>
      match OMap.get playerId (Room.players room) with
      | None => (s, [])
      | Some player => k ref room player
      end
  end.

(** Mutation of a player object held by the room object [ref]. *)
Definition put_player (ref : nat) (room : Room.t) (playerId : string)
    (p : Player.t) : Room.t :=
  Room.set_players (OMap.set playerId p (Room.players room)) room.

Definition on_playerState (sid roomCode playerId : string) (x y : Z)
    (velocityX velocityY : option Z) (health : Z) (isDead : bool)
    (shield : option Shield.t) (s : State) : State * list Out :=
  with_player roomCode playerId s (fun ref room player =>
    let room' :=
      put_player ref room playerId
        (Player.overwrite x y velocityX velocityY health isDead shield player) in
    (put_room ref room' s, [(ToOthers sid roomCode, gameState_of room')])).

Definition on_playerUpdate (sid roomCode playerId : string) (mouseX mouseY : Z)
    (s : State) : State * list Out :=
  (s, [(ToOthers sid roomCode, EvPlayerUpdate playerId mouseX mouseY)]).

Definition on_swordSwing (sid roomCode playerId : string)
    (hitbox : option Hitbox.t) (s : State) : State * list Out :=
  with_player roomCode playerId s (fun ref room player =>
    let p1 := Player.set_sword (Some (Sword.mk true true (Some 0))) player in
    let p2 := Player.set_swordHitbox hitbox p1 in
    let p3 := Player.set_shield (Some (Shield.mk false None)) p2 in
    (put_room ref (put_player ref room playerId p3) s,
     [(ToOthers sid roomCode, EvSwordSwing playerId hitbox)])).

Definition on_swordRelease (sid roomCode playerId : string) (s : State)
  : State * list Out :=
  with_player roomCode playerId s (fun ref room player =>
    let p1 := Player.set_sword (Some (Sword.mk false false None)) player in
    let p2 := Player.set_shield (Some (Shield.mk true None)) p1 in
    (put_room ref (put_player ref room playerId p2) s,
     [(ToOthers sid roomCode, EvSwordRelease playerId)])).

Definition on_playerHit (roomCode targetId attackerId : string) (s : State)
  : State * list Out :=
  match rooms_get s roomCode with
  | None => (s, [])
  | Some (ref, room) =>
      match OMap.get targetId (Room.players room),
            OMap.get attackerId (Room.players room) with
      | Some targetPlayer, Some attackerPlayer =>
          if Player.isDead targetPlayer then (s, [])
          else
            let t1 := Player.set_health (Z.max 0 (Player.health targetPlayer - 15))
                        targetPlayer in
            let room1 := put_player ref room targetId t1 in
            let hit := [(ToRoom roomCode, EvPlayerHit targetId attackerId 15)] in
            if (Player.health t1 <=? 0) && negb (Player.isDead t1) then
              let room2 := put_player ref room1 targetId (Player.set_isDead true t1) in
              let '(room3, over) := checkGameOver roomCode targetId room2 in
              (put_room ref room3 s, over ++ hit)
            else (put_room ref room1 s, hit)
      | _, _ => (s, [])
      end
  end.

Definition on_playerDied (roomCode playerId : string) (s : State)
  : State * list Out :=
  with_player roomCode playerId s (fun ref room player =>
    let room1 := put_player ref room playerId (Player.set_isDead true player) in
    let '(room2, over) := checkGameOver roomCode playerId room1 in
    (put_room ref room2 s, over)).

Definition on_playerRespawn (sid roomCode playerId : string) (s : State)
  : State * list Out :=
  with_player roomCode playerId s (fun ref room player =>
    let p1 := Player.set_isDead false (Player.set_health 100 player) in
    (put_room ref (put_player ref room playerId p1) s,
     [(ToOthers sid roomCode, EvPlayerRespawn playerId)])).

(** [a?.name || 'Player']: the empty string is falsy. *)
Definition name_or_default (p : option Player.t) : string :=
  match p with
  | Some q => if String.eqb (Player.name q) "" then "Player" else Player.name q
  | None => "Player"
  end.

Definition on_disconnect (sid : string) (s0 : State) : State * list Out :=
  let s := socket_leaveAll sid s0 in
  match OMap.get sid (players s) with
  | None => (s, [])
  | Some playerData =>
      let playerId := Binding.playerId playerData in
      let roomCode := Binding.roomCode playerData in
      match rooms_get s roomCode with
      | Some (ref, room) =>
          let room' := Room.set_players (OMap.delete playerId (Room.players room)) room in
          let s1 := put_room ref room' s in
          let ev :=
            [(ToOthers sid roomCode,
              EvPlayerDisconnected playerId
                (name_or_default (OMap.get playerId (Room.players room'))))] in
          let s2 :=
            if (OMap.size (Room.players room') =? 0)%nat
            then set_rooms (OMap.delete roomCode (rooms s1)) s1
            else s1 in
          (set_players (OMap.delete sid (players s2)) s2, ev)
      | None => (set_players (OMap.delete sid (players s)) s, [])
      end
  end.

(** The dispatch of [socket.on]: the handler run for message [m] arriving on
    socket [sid]. *)
Definition handle (sid : string) (rnd : Rand) (m : Msg) (s : State)
  : State * list Out :=
  match m with
  | CreateRoom playerName => on_createRoom sid rnd playerName s
  | JoinRandomRoom playerName => on_joinRandomRoom sid rnd playerName s
  | JoinRoom playerName roomCode => joinRoom sid rnd playerName roomCode s
  | JoinGame playerId playerName roomCode =>
      on_joinGame sid playerId playerName roomCode s
  | PlayerState roomCode playerId x y vx vy health isDead shield =>
      on_playerState sid roomCode playerId x y vx vy health isDead shield s
  | PlayerUpdate roomCode playerId mouseX mouseY =>
      on_playerUpdate sid roomCode playerId mouseX mouseY s
  | SwordSwing roomCode playerId hitbox => on_swordSwing sid roomCode playerId hitbox s
  | SwordRelease roomCode playerId => on_swordRelease sid roomCode playerId s
  | PlayerHit roomCode targetId attackerId => on_playerHit roomCode targetId attackerId s
  | PlayerDied roomCode playerId => on_playerDied roomCode playerId s
  | PlayerRespawn roomCode playerId => on_playerRespawn sid roomCode playerId s
  | Disconnect => on_disconnect sid s
  end.

(** ** The event loop *)

Inductive Input :=
| Recv (sid : string) (rnd : Rand) (m : Msg)
| Fire (tid : nat).

Definition step (i : Input) (s : State) : State * list Out :=
  match i with
  | Recv sid rnd m => handle sid rnd m s
  | Fire tid => tick tid s
  end.

(** The state after a sequence of inputs, with what each input emitted. *)
Fixpoint run (ins : list Input) (s : State) : State * list (list Out) :=
  match ins with
  | [] => (s, [])
  | i :: ins' =>
      let '(s1, out) := step i s in
      let '(s2, outs) := run ins' s1 in
      (s2, out :: outs)
  end.

Definition state_after (ins : list Input) : State := fst (run ins init).


(** The room registered under a code, and a player of it. *)
Definition room_of (s : State) (code : string) : option Room.t :=
  match rooms_get s code with Some (_, r) => Some r | None => None end.

Definition player_of (s : State) (code pid : string) : option Player.t :=
  match room_of s code with
  | Some r => OMap.get pid (Room.players r)
  | None => None
  end.

(** ** Predicates used by the statements *)

(** Health of every player of every room object lies in [0,100]. *)
Definition health_ok (p : Player.t) : Prop := 0 <= Player.health p <= 100.

Definition room_health_ok (r : Room.t) : Prop :=
  Forall (fun kp => health_ok (snd kp)) (Room.players r).

Definition health_inv (s : State) : Prop := Forall room_health_ok (heap s).

(** The health a playerState report carries lies in [0,100]. *)
Definition reported_health_ok (i : Input) : Prop :=
  match i with
  | Recv _ _ (PlayerState _ _ _ _ _ _ h _ _) => 0 <= h <= 100
  | _ => True
  end.

(** Sword and shield as the snapshot shows them, both active. *)
Definition both_active (p : Player.t) : bool :=
  Sword.active (View.sword (view_of p)) && Shield.active (View.shield (view_of p)).

(** A message that names a room code absent from [rooms], or a player id
    absent from the named room.  For joinGame only the room counts. *)
Definition known_player (s : State) (code pid : string) : bool :=
  match player_of s code pid with Some _ => true | None => false end.

Definition unknown_ref (s : State) (m : Msg) : bool :=
  match m with
  | PlayerState code pid _ _ _ _ _ _ _
  | SwordSwing code pid _
  | SwordRelease code pid
  | PlayerDied code pid
  | PlayerRespawn code pid => negb (known_player s code pid)
  | PlayerHit code target attacker =>
      negb (known_player s code target && known_player s code attacker)
  | JoinGame _ _ code =>
      match rooms_get s code with Some _ => false | None => true end
  | _ => false
  end.

(** Every room registered in [rooms] holds at most two players. *)
Definition rooms_le2 (s : State) : Prop :=
  forall code r, room_of s code = Some r -> (OMap.size (Room.players r) <= 2)%nat.

(** Every room object, registered or not, holds at most two players. *)
Definition room_le2 (r : Room.t) : Prop := (OMap.size (Room.players r) <= 2)%nat.

Definition heap_le2 (s : State) : Prop := Forall room_le2 (heap s).

(** The gameOver events of an output. *)
Definition is_gameOver (o : Out) : bool :=
  match snd o with EvGameOver _ _ => true | _ => false end.

Definition gameOvers (outs : list (list Out)) : list Out :=
  filter is_gameOver (List.concat outs).

(** The countdown values an output carries. *)
Definition countdown_values (out : list Out) : list Z :=
  flat_map (fun o => match snd o with EvCountdown n => [n] | _ => [] end) out.

Definition is_fire (tid : nat) (i : Input) : bool :=
  match i with Fire t => Nat.eqb t tid | Recv _ _ _ => false end.

(** The countdown values emitted by the firings of interval [tid] in the
    course of a sequence of inputs. *)
Fixpoint fired (tid : nat) (ins : list Input) (s : State) : list Z :=
  match ins with
  | [] => []
  | i :: ins' =>
      (if is_fire tid i then countdown_values (snd (step i s)) else [])
        ++ fired tid ins' (fst (step i s))
  end.

(** [n, n-1, ..., 0]. *)
Fixpoint countdown_from (n : nat) : list Z :=
  match n with
  | O => [0]
  | S n' => Z.of_nat n :: countdown_from n'
  end.

(** ** A session used in examples

    Socket s1 creates room AB12 as Alice (player p1); socket s2 joins it by
    code as Bob (player p2). *)

Definition rnd1 : Rand := mkRand "AB12" "p1".
Definition rnd2 : Rand := mkRand "QX7Z" "p2".
Definition rnd3 : Rand := mkRand "K0K0" "p3".

Definition lobby : list Input :=
  [Recv "s1" rnd1 (CreateRoom "Alice"); Recv "s2" rnd2 (JoinRoom "Bob" "AB12")].

Definition st_lobby : State := state_after lobby.

(** A whole match: both players enter the game page, the countdown runs,
    Bob hits Alice seven times, and Alice's client then reports her death. *)
Definition hit_p1 : Input := Recv "s2" rnd2 (PlayerHit "AB12" "p1" "p2").

Definition match_play : list Input :=
  lobby ++
  [Recv "s1" rnd1 (JoinGame "p1" "Alice" "AB12");
   Recv "s2" rnd2 (JoinGame "p2" "Bob" "AB12");
   Fire 0; Fire 0; Fire 0; Fire 0;
   hit_p1; hit_p1; hit_p1; hit_p1; hit_p1; hit_p1; hit_p1;
   Recv "s1" rnd1 (PlayerDied "AB12" "p1")].

(** ** Consistency of the server state

    What the handlers keep true of the objects they share. *)

(** A room object: the [countdown] field is the 3 it was created with, no
    [gameLoop] handle is stored, the player map has one entry per key, and
    each player object is stored under its own [id]. *)
Definition room_wf (r : Room.t) : Prop :=
  Room.countdown r = 3 /\
  Room.gameLoop r = None /\
  NoDup (OMap.keys (Room.players r)) /\
  Forall (fun kp => Player.id (snd kp) = fst kp) (Room.players r).

(** The registry: one entry per code, no room object registered twice, and
    each entry leads to a live room object whose [code] is its key. *)
Definition registry_wf (s : State) : Prop :=
  NoDup (OMap.keys (rooms s)) /\
  NoDup (OMap.values (rooms s)) /\
  Forall (fun kr => exists r, nth_error (heap s) (snd kr) = Some r /\ Room.code r = fst kr)
    (rooms s).

(** Every interval closure holds a live room object. *)
Definition timers_wf (s : State) : Prop :=
  Forall (fun t => (Timer.room t < List.length (heap s))%nat) (timers s).

Definition consistent (s : State) : Prop :=
  Forall room_wf (heap s) /\ registry_wf s /\ timers_wf s.

(** The room code a message carries, for the messages that carry one. *)
Definition msg_room (m : Msg) : option string :=
  match m with
  | JoinRoom _ code | JoinGame _ _ code => Some code
  | PlayerState code _ _ _ _ _ _ _ _
  | PlayerUpdate code _ _ _
  | SwordSwing code _ _
  | SwordRelease code _
  | PlayerHit code _ _
  | PlayerDied code _
  | PlayerRespawn code _ => Some code
  | CreateRoom _ | JoinRandomRoom _ | Disconnect => None
  end.

(** A room that matchmaking may fill: exactly one player, not started. *)
Definition is_open (r : Room.t) : bool :=
  (OMap.size (Room.players r) =? 1)%nat && negb (Room.gameStarted r).

(** The players of a list whose [isDead] is false. *)
Definition alive (ps : list Player.t) : list Player.t :=
  filter (fun p => negb (Player.isDead p)) ps.

(** The gameState events of an output with the [countdown] they carry. *)
Definition gameState_countdowns (out : list Out) : list Z :=
  flat_map (fun o => match snd o with EvGameState _ _ c => [c] | _ => [] end) out.

(** An input other than a joinGame message. *)
Definition not_joinGame (i : Input) : bool :=
  match i with
  | Recv _ _ (JoinGame _ _ _) => false
  | _ => true
  end.

(** ** The body of [generateRoomCode]

    [chars[Math.floor(Math.random() * chars.length)]] is taken with the
    floored draw as its input; an index outside the alphabet would read
    [undefined], which [+=] appends as text. *)
Definition chars : string := "ABCDEFGHIJKLMNOPQRSTUVWXYZ0123456789".

Definition append_draw (code : string) (i : nat) : string :=
  match String.get i chars with
  | Some c => code ++ String c ""
  | None => code ++ "undefined"
  end.

Definition roomCode_of (d0 d1 d2 d3 : nat) : string :=
  fold_left append_draw [d0; d1; d2; d3] "".

(** * Properties *)

(** ** Lists updated by index *)

Lemma upd_nth_length {A} (n : nat) (a : A) (l : list A) :
  List.length (upd_nth n a l) = List.length l.
Proof.
  revert n; induction l as [|b l IH]; intros [|n]; simpl; auto.
Qed.

Lemma nth_error_upd_nth_eq {A} (n : nat) (a : A) (l : list A) :
  (n < List.length l)%nat -> nth_error (upd_nth n a l) n = Some a.
Proof.
  revert n; induction l as [|b l IH]; intros [|n] H; simpl in *;
    try lia; auto.
  apply IH; lia.
Qed.

Lemma nth_error_upd_nth_neq {A} (n m : nat) (a : A) (l : list A) :
  n <> m -> nth_error (upd_nth n a l) m = nth_error l m.
Proof.
  revert n m; induction l as [|b l IH]; intros [|n] [|m] H; simpl;
    try congruence; auto.
Qed.

Lemma upd_nth_same {A} (n : nat) (a : A) (l : list A) :
  nth_error l n = Some a -> upd_nth n a l = l.
Proof.
  revert n; induction l as [|b l IH]; intros [|n] H; simpl in *;
    try congruence.
  f_equal; auto.
Qed.

Lemma nth_error_some_lt {A} (n : nat) (a : A) (l : list A) :
  nth_error l n = Some a -> (n < List.length l)%nat.
Proof.
  intros H; apply nth_error_Some; congruence.
Qed.

Lemma Forall_upd_nth {A} (P : A -> Prop) (n : nat) (a : A) (l : list A) :
  Forall P l -> P a -> Forall P (upd_nth n a l).
Proof.
  intros Hl Ha; revert n; induction Hl as [|b l Hb Hl IH]; intros [|n];
    simpl; constructor; auto.
Qed.

Lemma Forall_nth_error {A} (P : A -> Prop) (n : nat) (a : A) (l : list A) :
  Forall P l -> nth_error l n = Some a -> P a.
Proof.
  intros Hl Hn; rewrite Forall_forall in Hl; apply Hl.
  eapply nth_error_In; eauto.
Qed.

(** ** Insertion-ordered maps *)

Section OMapFacts.
Context {V : Type}.
Implicit Types (m : OMap.t V) (k : string) (v : V).

Lemma get_set_eq k v m : OMap.get k (OMap.set k v m) = Some v.
Proof.
  induction m as [|[k' v'] m IH]; simpl.
  - now rewrite String.eqb_refl.
  - destruct (String.eqb k k') eqn:E; simpl; rewrite ?E, ?String.eqb_refl; auto.
Qed.

Lemma get_set_neq k k' v m :
  k <> k' -> OMap.get k' (OMap.set k v m) = OMap.get k' m.
Proof.
  intros Hk; induction m as [|[k0 v0] m IH]; simpl.
  - destruct (String.eqb_spec k' k); congruence.
  - destruct (String.eqb_spec k k0); simpl.
    + subst k0. destruct (String.eqb_spec k' k); congruence.
    + now rewrite IH.
Qed.

Lemma get_delete_eq k m : OMap.get k (OMap.delete k m) = None.
Proof.
  unfold OMap.delete.
  induction m as [|[k' v'] m IH]; simpl; auto.
  destruct (String.eqb k k') eqn:E; simpl; auto.
  now rewrite E.
Qed.

Lemma set_same k v m : OMap.get k m = Some v -> OMap.set k v m = m.
Proof.
  induction m as [|[k' v'] m IH]; simpl; try discriminate.
  destruct (String.eqb_spec k k'); intros H.
  - congruence.
  - now rewrite IH.
Qed.

Lemma set_set k v v' m : OMap.set k v (OMap.set k v' m) = OMap.set k v m.
Proof.
  induction m as [|[k0 v0] m IH]; simpl.
  - now rewrite String.eqb_refl.
  - destruct (String.eqb k k0) eqn:E; simpl; rewrite ?E, ?String.eqb_refl; auto.
    now rewrite IH.
Qed.

Lemma size_set_has k v m :
  OMap.has k m = true -> OMap.size (OMap.set k v m) = OMap.size m.
Proof.
  unfold OMap.has, OMap.size.
  induction m as [|[k' v'] m IH]; simpl; try discriminate.
  destruct (String.eqb k k'); simpl; auto.
Qed.

Lemma size_set_new k v m :
  OMap.has k m = false -> OMap.size (OMap.set k v m) = S (OMap.size m).
Proof.
  unfold OMap.has, OMap.size.
  induction m as [|[k' v'] m IH]; simpl; auto.
  destruct (String.eqb k k'); simpl; try discriminate; auto.
Qed.

Lemma set_new k v m :
  OMap.has k m = false -> OMap.set k v m = m ++ [(k, v)].
Proof.
  unfold OMap.has.
  induction m as [|[k' v'] m IH]; simpl; auto.
  destruct (String.eqb k k'); simpl; try discriminate.
  intros H; now rewrite IH.
Qed.

Lemma Forall_set (P : string * V -> Prop) k v m :
  Forall P m -> P (k, v) -> Forall P (OMap.set k v m).
Proof.
  intros Hm Hv; induction Hm as [|[k' v'] m Hx Hm IH]; simpl.
  - constructor; auto.
  - destruct (String.eqb k k'); constructor; auto.
Qed.

Lemma Forall_delete (P : string * V -> Prop) k m :
  Forall P m -> Forall P (OMap.delete k m).
Proof.
  intros Hm; unfold OMap.delete.
  induction Hm as [|x m Hx Hm IH]; simpl; auto.
  destruct (negb _); auto.
Qed.

Lemma get_In k v m : OMap.get k m = Some v -> In (k, v) m.
Proof.
  induction m as [|[k' v'] m IH]; simpl; try discriminate.
  destruct (String.eqb_spec k k'); intros H.
  - left; congruence.
  - right; auto.
Qed.
End OMapFacts.

(** ** The registry and the heap *)

Lemma rooms_get_put_room s code ref room room' :
  rooms_get s code = Some (ref, room) ->
  rooms_get (put_room ref room' s) code = Some (ref, room').
Proof.
  unfold rooms_get, put_room; simpl.
  destruct (OMap.get code (rooms s)) as [r|]; try discriminate.
  destruct (nth_error (heap s) r) eqn:E; try discriminate.
  intros H; inversion H; subst.
  rewrite nth_error_upd_nth_eq; eauto using nth_error_some_lt.
Qed.

Lemma rooms_get_heap s code ref room :
  rooms_get s code = Some (ref, room) -> nth_error (heap s) ref = Some room.
Proof.
  unfold rooms_get.
  destruct (OMap.get code (rooms s)) as [r|]; try discriminate.
  destruct (nth_error (heap s) r) eqn:E; try discriminate.
  congruence.
Qed.

Lemma put_room_same s ref room :
  nth_error (heap s) ref = Some room -> put_room ref room s = s.
Proof.
  intros H; unfold put_room; rewrite upd_nth_same by assumption.
  now destruct s.
Qed.

(** A [socket.to(code)] emit never reaches the emitting socket. *)
Lemma sender_not_recipient s sid code :
  ~ In sid (recipients s (ToOthers sid code)).
Proof.
  simpl; intros H. apply in_map_iff in H as [[a b] [Ha Hb]].
  simpl in Ha; subst a. apply filter_In in Hb as [_ Hb]; simpl in Hb.
  rewrite String.eqb_refl, andb_false_r in Hb; discriminate.
Qed.

(** ** Sword and shield (swordSwing, swordRelease) *)

Lemma swordSwing_player s sid code pid hb ref room p :
  rooms_get s code = Some (ref, room) ->
  OMap.get pid (Room.players room) = Some p ->
  on_swordSwing sid code pid hb s =
    (put_room ref
       (put_player ref room pid
          (Player.set_shield (Some (Shield.mk false None))
             (Player.set_swordHitbox hb
                (Player.set_sword (Some (Sword.mk true true (Some 0))) p)))) s,
     [(ToOthers sid code, EvSwordSwing pid hb)]).
Proof.
  intros Hr Hp; unfold on_swordSwing, with_player; now rewrite Hr, Hp.
Qed.

Lemma swordRelease_player s sid code pid ref room p :
  rooms_get s code = Some (ref, room) ->
  OMap.get pid (Room.players room) = Some p ->
  on_swordRelease sid code pid s =
    (put_room ref
       (put_player ref room pid
          (Player.set_shield (Some (Shield.mk true None))
             (Player.set_sword (Some (Sword.mk false false None)) p))) s,
     [(ToOthers sid code, EvSwordRelease pid)]).
Proof.
  intros Hr Hp; unfold on_swordRelease, with_player; now rewrite Hr, Hp.
Qed.

Lemma player_of_put s code pid ref room q :
  rooms_get s code = Some (ref, room) ->
  player_of (put_room ref (put_player ref room pid q) s) code pid = Some q.
Proof.
  intros Hr; unfold player_of, room_of.
  rewrite (rooms_get_put_room _ _ _ _ _ Hr); simpl.
  apply get_set_eq.
Qed.

Lemma player_of_inv s code pid p :
  player_of s code pid = Some p ->
  exists ref room,
    rooms_get s code = Some (ref, room) /\ OMap.get pid (Room.players room) = Some p.
Proof.
  unfold player_of, room_of.
  destruct (rooms_get s code) as [[ref room]|]; try discriminate.
  eauto.
Qed.

(** C10. For a player present in the room, swordSwing leaves the sword
    active and swinging and the shield inactive; swordRelease leaves the
    sword inactive and the shield active; after either, sword and shield are
    not both active. *)
Theorem sword_shield_exclusive s sid rnd code pid hb p :
  player_of s code pid = Some p ->
  (exists q,
     player_of (fst (handle sid rnd (SwordSwing code pid hb) s)) code pid = Some q /\
     Player.sword q = Some (Sword.mk true true (Some 0)) /\
     Player.shield q = Some (Shield.mk false None) /\
     both_active q = false) /\
  (exists q,
     player_of (fst (handle sid rnd (SwordRelease code pid) s)) code pid = Some q /\
     Player.sword q = Some (Sword.mk false false None) /\
     Player.shield q = Some (Shield.mk true None) /\
     both_active q = false).
Proof.
  intros Hp. destruct (player_of_inv _ _ _ _ Hp) as (ref & room & Hr & Hg).
  split; simpl.
  - rewrite (swordSwing_player _ _ _ _ _ _ _ _ Hr Hg); simpl.
    eexists; split; [apply player_of_put; exact Hr|]. now simpl.
  - rewrite (swordRelease_player _ _ _ _ _ _ _ Hr Hg); simpl.
    eexists; split; [apply player_of_put; exact Hr|]. now simpl.
Qed.

Lemma sword_shield_exclusive_witness :
  player_of st_lobby "AB12" "p2" = Some (Player.fresh "p2" "Bob" "s2") /\
  exists q,
    player_of (fst (handle "s2" rnd2 (SwordSwing "AB12" "p2" None) st_lobby))
      "AB12" "p2" = Some q /\
    both_active q = false.
Proof.
  split; [reflexivity|].
  destruct (sword_shield_exclusive st_lobby "s2" rnd2 "AB12" "p2" None
              (Player.fresh "p2" "Bob" "s2") eq_refl) as [(q & H1 & _ & _ & H2) _].
  exists q; split; assumption.
Defined.

(** ** Respawn (playerRespawn) *)

Lemma playerRespawn_player s sid code pid ref room p :
  rooms_get s code = Some (ref, room) ->
  OMap.get pid (Room.players room) = Some p ->
  on_playerRespawn sid code pid s =
    (put_room ref
       (put_player ref room pid (Player.set_isDead false (Player.set_health 100 p))) s,
     [(ToOthers sid code, EvPlayerRespawn pid)]).
Proof.
  intros Hr Hp; unfold on_playerRespawn, with_player; now rewrite Hr, Hp.
Qed.

(** C9. For a player present in a room, playerRespawn sets health to 100 and
    the death flag to false whatever they were, leaves [gameStarted] as it
    was, emits one playerRespawn event addressed to the room minus the
    sending socket (which is therefore not among its recipients), and a
    repeated respawn leaves the state as the first one left it. *)
Theorem respawn_resets_player s sid rnd code pid ref room p :
  rooms_get s code = Some (ref, room) ->
  OMap.get pid (Room.players room) = Some p ->
  let s' := fst (handle sid rnd (PlayerRespawn code pid) s) in
  let out := snd (handle sid rnd (PlayerRespawn code pid) s) in
  (exists room' q,
     rooms_get s' code = Some (ref, room') /\
     OMap.get pid (Room.players room') = Some q /\
     Player.health q = 100 /\
     Player.isDead q = false /\
     Room.gameStarted room' = Room.gameStarted room) /\
  out = [(ToOthers sid code, EvPlayerRespawn pid)] /\
  ~ In sid (recipients s' (ToOthers sid code)) /\
  fst (handle sid rnd (PlayerRespawn code pid) s') = s'.
Proof.
  intros Hr Hp; simpl.
  rewrite (playerRespawn_player _ _ _ _ _ _ _ Hr Hp); simpl.
  pose proof (rooms_get_put_room _ _ _ _
    (put_player ref room pid (Player.set_isDead false (Player.set_health 100 p))) Hr)
    as Hr'.
  repeat split.
  - do 2 eexists; split; [exact Hr'|]. simpl.
    split; [apply get_set_eq|]. now simpl.
  - apply sender_not_recipient.
  - rewrite (playerRespawn_player _ _ _ _ _ _ _ Hr' (get_set_eq _ _ _)); simpl.
    apply put_room_same.
    apply rooms_get_heap in Hr'. rewrite Hr'. f_equal.
    unfold put_player; simpl. now rewrite set_set.
Qed.

Lemma respawn_resets_player_witness :
  exists room' q,
    rooms_get (fst (handle "s1" rnd1 (PlayerRespawn "AB12" "p2")
                      (fst (handle "s1" rnd1 (PlayerDied "AB12" "p2") st_lobby))))
      "AB12" = Some (0%nat, room') /\
    OMap.get "p2" (Room.players room') = Some q /\
    Player.health q = 100 /\ Player.isDead q = false.
Proof.
  destruct (respawn_resets_player
              (fst (handle "s1" rnd1 (PlayerDied "AB12" "p2") st_lobby))
              "s1" rnd1 "AB12" "p2" 0%nat _ _ eq_refl eq_refl)
    as [(room' & q & H1 & H2 & H3 & H4 & _) _].
  exists room', q; repeat split; assumption.
Defined.

(** ** Hits (playerHit) *)

Lemma checkGameOver_shape code loser room :
  (checkGameOver code loser room = (room, [])) \/
  (exists last,
     countAlive (OMap.values (Room.players room)) = (1%nat, Some last) /\
     checkGameOver code loser room =
       (Room.set_gameStarted false room,
        [(ToRoom code, EvGameOver (Player.id last) loser)])).
Proof.
  unfold checkGameOver.
  destruct (countAlive _) as [[|[|n]] [last|]]; eauto.
Qed.

Lemma checkGameOver_players code loser room :
  Room.players (fst (checkGameOver code loser room)) = Room.players room.
Proof.
  destruct (checkGameOver_shape code loser room) as [H|(last & _ & H)];
    now rewrite H.
Qed.

Lemma checkGameOver_events code loser room :
  Forall (fun o => is_gameOver o = true /\ fst o = ToRoom code)
    (snd (checkGameOver code loser room)).
Proof.
  destruct (checkGameOver_shape code loser room) as [H|(last & _ & H)];
    rewrite H; simpl; auto.
Qed.

(** The effect of an accepted hit: health is lowered by 15 and clamped at
    0, the death flag is raised when health reached 0, and the playerHit
    event follows whatever the survivor check emitted. *)
Lemma playerHit_applied s code tid aid ref room t a :
  rooms_get s code = Some (ref, room) ->
  OMap.get tid (Room.players room) = Some t ->
  OMap.get aid (Room.players room) = Some a ->
  Player.isDead t = false ->
  exists room' q over,
    on_playerHit code tid aid s =
      (put_room ref room' s, over ++ [(ToRoom code, EvPlayerHit tid aid 15)]) /\
    OMap.get tid (Room.players room') = Some q /\
    Player.health q = Z.max 0 (Player.health t - 15) /\
    Player.isDead q = (Player.health t - 15 <=? 0) /\
    Forall (fun o => is_gameOver o = true /\ fst o = ToRoom code) over /\
    (15 < Player.health t -> over = []).
Proof.
  intros Hr Ht Ha Hd. unfold on_playerHit. rewrite Hr, Ht, Ha, Hd.
  cbn [Player.health Player.set_health Player.isDead andb negb].
  rewrite Hd; cbn [negb]; rewrite andb_true_r.
  destruct (Z.max 0 (Player.health t - 15) <=? 0) eqn:E.
  - match goal with
    | |- context [checkGameOver ?c ?l ?r] =>
        pose proof (checkGameOver_players c l r) as Hps;
        pose proof (checkGameOver_events c l r) as Hev;
        destruct (checkGameOver c l r) as [room3 over]
    end.
    simpl in Hps, Hev.
    exists room3, (Player.set_isDead true
                     (Player.set_health (Z.max 0 (Player.health t - 15)) t)), over.
    split; [reflexivity|].
    split; [rewrite Hps; unfold put_player; simpl; apply get_set_eq|].
    split; [reflexivity|].
    split; [simpl; symmetry; apply Z.leb_le; apply Z.leb_le in E; lia|].
    split; [assumption|].
    intros Hh. apply Z.leb_le in E. lia.
  - eexists _, _, []. split; [reflexivity|].
    split; [unfold put_player; simpl; apply get_set_eq|].
    split; [reflexivity|].
    split; [simpl; rewrite Hd; symmetry; apply Z.leb_gt; apply Z.leb_gt in E; lia|].
    split; [constructor|]. reflexivity.
Qed.

(** C5. playerHit changes nothing and emits nothing when the room, the
    target or the attacker is missing or the target is already dead;
    otherwise it emits a playerHit event with damage 15 to the whole room,
    preceded only by gameOver events, and by none when the target survives. *)
Theorem playerHit_guard s sid rnd code tid aid :
  (rooms_get s code = None ->
   handle sid rnd (PlayerHit code tid aid) s = (s, [])) /\
  (forall ref room,
     rooms_get s code = Some (ref, room) ->
     OMap.get tid (Room.players room) = None \/
     OMap.get aid (Room.players room) = None \/
     (exists t, OMap.get tid (Room.players room) = Some t /\ Player.isDead t = true) ->
     handle sid rnd (PlayerHit code tid aid) s = (s, [])) /\
  (forall ref room t a,
     rooms_get s code = Some (ref, room) ->
     OMap.get tid (Room.players room) = Some t ->
     OMap.get aid (Room.players room) = Some a ->
     Player.isDead t = false ->
     exists s' over,
       handle sid rnd (PlayerHit code tid aid) s =
         (s', over ++ [(ToRoom code, EvPlayerHit tid aid 15)]) /\
       Forall (fun o => is_gameOver o = true /\ fst o = ToRoom code) over /\
       (15 < Player.health t -> over = [])).
Proof.
  simpl; unfold on_playerHit. repeat split.
  - intros Hr; now rewrite Hr.
  - intros ref room Hr [Ht|[Ha|(t & Ht & Hd)]]; rewrite Hr.
    + now rewrite Ht.
    + rewrite Ha. now destruct (OMap.get tid (Room.players room)).
    + rewrite Ht, Hd. now destruct (OMap.get aid (Room.players room)).
  - intros ref room t a Hr Ht Ha Hd.
    destruct (playerHit_applied _ _ _ _ _ _ _ _ Hr Ht Ha Hd)
      as (room' & q & over & H & _ & _ & _ & Hev & Hsurv).
    exists (put_room ref room' s), over. unfold on_playerHit in H. auto.
Qed.

Lemma playerHit_guard_witness :
  (handle "s1" rnd1 (PlayerHit "AB12" "p2" "p9") st_lobby = (st_lobby, [])) /\
  (exists s' over,
     handle "s1" rnd1 (PlayerHit "AB12" "p2" "p1") st_lobby =
       (s', over ++ [(ToRoom "AB12", EvPlayerHit "p2" "p1" 15)]) /\
     over = []).
Proof.
  destruct (playerHit_guard st_lobby "s1" rnd1 "AB12" "p2" "p9") as (_ & Hn & _).
  destruct (playerHit_guard st_lobby "s1" rnd1 "AB12" "p2" "p1") as (_ & _ & Hy).
  split.
  - eapply Hn; [reflexivity|]. right; left; reflexivity.
  - destruct (Hy 0%nat _ (Player.fresh "p2" "Bob" "s2") (Player.fresh "p1" "Alice" "s1")
                eq_refl eq_refl eq_refl eq_refl) as (s' & over & H1 & _ & H3).
    exists s', over. split; [exact H1|]. apply H3. simpl. lia.
Defined.

(** ** Joining by code (joinRoom) *)

Lemma rooms_get_absent s code :
  OMap.get code (rooms s) = None -> rooms_get s code = None.
Proof.
  intros H; unfold rooms_get; now rewrite H.
Qed.

Lemma rooms_get_frame s s' code :
  rooms s' = rooms s -> heap s' = heap s -> rooms_get s' code = rooms_get s code.
Proof.
  intros Hr Hh; unfold rooms_get; now rewrite Hr, Hh.
Qed.

(** C8. joinRoom answers roomNotFound when the code is not registered and
    roomFull when the room holds two players (or more), leaving the whole
    state as it was; otherwise it appends a player at (0,0) with health 100,
    alive, under the generated id (taken fresh for the room), binds the
    socket to it and returns the id in roomJoined. *)
Theorem joinRoom_outcomes s sid rnd pname code :
  (OMap.get code (rooms s) = None ->
   handle sid rnd (JoinRoom pname code) s = (s, [(ToSocket sid, EvRoomNotFound)])) /\
  (forall ref room,
     rooms_get s code = Some (ref, room) ->
     (2 <= OMap.size (Room.players room))%nat ->
     handle sid rnd (JoinRoom pname code) s = (s, [(ToSocket sid, EvRoomFull)])) /\
  (forall ref room,
     rooms_get s code = Some (ref, room) ->
     (OMap.size (Room.players room) < 2)%nat ->
     OMap.has (generatePlayerId rnd) (Room.players room) = false ->
     let pid := generatePlayerId rnd in
     let p := Player.mk pid pname sid 0 0 None None 100 false None None None in
     exists s' room',
       handle sid rnd (JoinRoom pname code) s =
         (s', [(ToSocket sid, EvRoomJoined code pid)]) /\
       rooms_get s' code = Some (ref, room') /\
       Room.players room' = Room.players room ++ [(pid, p)] /\
       Room.gameStarted room' = Room.gameStarted room /\
       OMap.get sid (players s') = Some (Binding.mk pid code) /\
       rooms s' = rooms s).
Proof.
  simpl; unfold joinRoom. repeat split.
  - intros H; now rewrite (rooms_get_absent _ _ H).
  - intros ref room Hr Hfull. rewrite Hr.
    apply Nat.leb_le in Hfull. now rewrite Hfull.
  - intros ref room Hr Hsz Hfresh. rewrite Hr.
    apply Nat.leb_gt in Hsz. rewrite Hsz.
    do 2 eexists. split; [reflexivity|].
    split.
    + erewrite rooms_get_frame; [eapply rooms_get_put_room; exact Hr| |];
        reflexivity.
    + simpl. rewrite (set_new _ _ _ Hfresh).
      repeat split. apply get_set_eq.
Qed.

Lemma joinRoom_outcomes_witness :
  handle "s9" rnd3 (JoinRoom "Carol" "NOPE") st_lobby =
    (st_lobby, [(ToSocket "s9", EvRoomNotFound)]) /\
  handle "s9" rnd3 (JoinRoom "Carol" "AB12") st_lobby =
    (st_lobby, [(ToSocket "s9", EvRoomFull)]) /\
  exists s' room',
    handle "s2" rnd2 (JoinRoom "Bob" "AB12")
      (state_after [Recv "s1" rnd1 (CreateRoom "Alice")]) =
      (s', [(ToSocket "s2", EvRoomJoined "AB12" "p2")]) /\
    rooms_get s' "AB12" = Some (0%nat, room') /\
    OMap.size (Room.players room') = 2%nat.
Proof.
  destruct (joinRoom_outcomes st_lobby "s9" rnd3 "Carol" "NOPE") as (H1 & _ & _).
  destruct (joinRoom_outcomes st_lobby "s9" rnd3 "Carol" "AB12") as (_ & H2 & _).
  destruct (joinRoom_outcomes (state_after [Recv "s1" rnd1 (CreateRoom "Alice")])
              "s2" rnd2 "Bob" "AB12") as (_ & _ & H3).
  split; [apply H1; reflexivity|].
  split; [eapply H2; [reflexivity|simpl; lia]|].
  destruct (H3 0%nat _ eq_refl) as (s' & room' & Ha & Hb & Hc & _);
    [simpl; lia|reflexivity|].
  exists s', room'. split; [exact Ha|]. split; [exact Hb|].
  unfold OMap.size. rewrite Hc. reflexivity.
Defined.

(** ** Messages that name an unknown room or player *)

Lemma with_player_unknown s code pid k :
  known_player s code pid = false -> with_player code pid s k = (s, []).
Proof.
  unfold known_player, player_of, room_of, with_player.
  destruct (rooms_get s code) as [[ref room]|]; auto.
  destruct (OMap.get pid (Room.players room)); auto; discriminate.
Qed.

(** C7, as stated, fails for joinGame: with no room registered at all, a
    joinGame message is answered with an event. *)
Lemma joinGame_unknown_room_emits :
  unknown_ref init (JoinGame "p1" "Alice" "AB12") = true /\
  handle "s1" rnd1 (JoinGame "p1" "Alice" "AB12") init =
    (init, [(ToSocket "s1", EvError "Room not found")]) /\
  snd (handle "s1" rnd1 (JoinGame "p1" "Alice" "AB12") init) <> [].
Proof.
  repeat split. discriminate.
Qed.

(** C7, amended. A playerState, swordSwing, swordRelease, playerHit,
    playerDied or playerRespawn message naming an unknown room or player
    changes nothing and emits nothing; a joinGame naming an unknown room
    changes nothing and emits exactly one error event, to the sender. *)
Theorem unknown_reference_ignored s sid rnd m :
  unknown_ref s m = true ->
  fst (handle sid rnd m s) = s /\
  snd (handle sid rnd m s) =
    match m with
    | JoinGame _ _ _ => [(ToSocket sid, EvError "Room not found")]
    | _ => []
    end.
Proof.
  destruct m; simpl; try discriminate; intros H;
    try (apply negb_true_iff in H;
         unfold on_playerState, on_swordSwing, on_swordRelease, on_playerDied,
           on_playerRespawn;
         rewrite (with_player_unknown _ _ _ _ H); auto).
  - unfold on_joinGame. destruct (rooms_get s _) as [[ref room]|]; auto.
    discriminate.
  - apply negb_true_iff in H. unfold on_playerHit.
    unfold known_player, player_of, room_of in H.
    destruct (rooms_get s _) as [[ref room]|]; auto.
    do 2 destruct (OMap.get _ (Room.players room)); auto.
    discriminate.
Qed.

Lemma unknown_reference_ignored_witness :
  unknown_ref st_lobby (PlayerDied "AB12" "p7") = true /\
  fst (handle "s1" rnd1 (PlayerDied "AB12" "p7") st_lobby) = st_lobby /\
  snd (handle "s1" rnd1 (PlayerDied "AB12" "p7") st_lobby) = [].
Proof.
  split; [reflexivity|].
  apply (unknown_reference_ignored st_lobby "s1" rnd1 (PlayerDied "AB12" "p7")).
  reflexivity.
Defined.

(** ** Health range *)

Lemma health_inv_heap s s' :
  heap s' = heap s -> health_inv s -> health_inv s'.
Proof.
  unfold health_inv; intros H; now rewrite H.
Qed.

Lemma health_inv_put_room s ref room :
  health_inv s -> room_health_ok room -> health_inv (put_room ref room s).
Proof.
  unfold health_inv; simpl; intros; now apply Forall_upd_nth.
Qed.

Lemma health_inv_rooms_get s code ref room :
  health_inv s -> rooms_get s code = Some (ref, room) -> room_health_ok room.
Proof.
  intros Hs Hr; eapply Forall_nth_error; [exact Hs|].
  eapply rooms_get_heap; eauto.
Qed.

Lemma room_health_ok_get room pid p :
  room_health_ok room -> OMap.get pid (Room.players room) = Some p -> health_ok p.
Proof.
  unfold room_health_ok; intros Hr Hg.
  rewrite Forall_forall in Hr. apply (Hr (pid, p)). now apply get_In.
Qed.

Lemma room_health_ok_put ref room pid p :
  room_health_ok room -> health_ok p -> room_health_ok (put_player ref room pid p).
Proof.
  unfold room_health_ok, put_player; simpl; intros; now apply Forall_set.
Qed.

Lemma room_health_ok_players room room' :
  Room.players room' = Room.players room -> room_health_ok room -> room_health_ok room'.
Proof.
  unfold room_health_ok; intros H; now rewrite H.
Qed.

Lemma health_ok_fresh pid pname sid : health_ok (Player.fresh pid pname sid).
Proof.
  unfold health_ok; simpl; lia.
Qed.

Lemma place_health i ps :
  Forall (fun kp : string * Player.t => health_ok (snd kp)) ps ->
  Forall (fun kp : string * Player.t => health_ok (snd kp)) (place i ps).
Proof.
  intros H; revert i; induction H as [|[k p] ps Hp Hps IH]; intros i; simpl;
    constructor; auto.
Qed.

Lemma with_player_health s code pid k :
  health_inv s ->
  (forall ref room p,
     rooms_get s code = Some (ref, room) ->
     OMap.get pid (Room.players room) = Some p ->
     room_health_ok room -> health_ok p ->
     health_inv (fst (k ref room p))) ->
  health_inv (fst (with_player code pid s k)).
Proof.
  intros Hs Hk; unfold with_player.
  destruct (rooms_get s code) as [[ref room]|] eqn:Hr; auto.
  destruct (OMap.get pid (Room.players room)) as [p|] eqn:Hp; auto.
  pose proof (health_inv_rooms_get _ _ _ _ Hs Hr) as Hroom.
  apply Hk; auto. eapply room_health_ok_get; eauto.
Qed.

Lemma joinRoom_health s sid rnd pname code :
  health_inv s -> health_inv (fst (joinRoom sid rnd pname code s)).
Proof.
  intros Hs; unfold joinRoom.
  destruct (rooms_get s code) as [[ref room]|] eqn:Hr; auto.
  destruct (2 <=? OMap.size (Room.players room))%nat; auto.
  simpl. eapply health_inv_heap with (s := put_room ref _ s); [reflexivity|].
  apply health_inv_put_room; auto.
  apply room_health_ok_put with (ref := ref);
    eauto using health_inv_rooms_get, health_ok_fresh.
Qed.

Lemma openRoom_health s sid rnd pname :
  health_inv s -> health_inv (openRoom sid rnd pname s).
Proof.
  unfold health_inv, openRoom; simpl; intros Hs.
  apply Forall_app; split; auto.
  constructor; [|constructor].
  unfold room_health_ok; simpl. constructor; [|constructor].
  apply health_ok_fresh.
Qed.

Lemma handle_health s sid rnd m :
  health_inv s -> reported_health_ok (Recv sid rnd m) ->
  health_inv (fst (handle sid rnd m s)).
Proof.
  intros Hs Hm; destruct m; simpl in *.
  - now apply openRoom_health.
  - unfold on_joinRandomRoom. destruct (findOpenRoom _ _).
    + now apply joinRoom_health.
    + now apply openRoom_health.
  - now apply joinRoom_health.
  - unfold on_joinGame.
    destruct (rooms_get s _) as [[ref room]|] eqn:Hr; auto.
    pose proof (health_inv_rooms_get _ _ _ _ Hs Hr) as Hroom.
    assert (Hroom' : room_health_ok (addIfAbsent sid playerId playerName room)).
    { unfold addIfAbsent; destruct (OMap.has _ _); auto.
      apply room_health_ok_put with (ref := ref); auto using health_ok_fresh. }
    match goal with |- context [if ?c then _ else _] => destruct c end; simpl.
    + unfold health_inv; simpl. apply Forall_upd_nth.
      * apply Forall_upd_nth; auto.
      * eapply room_health_ok_players; [|exact Hroom']. reflexivity.
    + eapply health_inv_heap with (s := put_room ref _ s); [reflexivity|].
      now apply health_inv_put_room.
  - apply with_player_health; auto. intros ref room p Hr Hp Hroom Hhp; simpl.
    apply health_inv_put_room; auto. now apply room_health_ok_put.
  - assumption.
  - apply with_player_health; auto. intros ref room p Hr Hp Hroom Hhp; simpl.
    apply health_inv_put_room; auto. now apply room_health_ok_put.
  - apply with_player_health; auto. intros ref room p Hr Hp Hroom Hhp; simpl.
    apply health_inv_put_room; auto. now apply room_health_ok_put.
  - unfold on_playerHit.
    destruct (rooms_get s _) as [[ref room]|] eqn:Hr; auto.
    destruct (OMap.get targetId _) as [t|] eqn:Ht; auto.
    destruct (OMap.get attackerId _) as [a|] eqn:Ha; auto.
    destruct (Player.isDead t) eqn:Hd; auto.
    pose proof (health_inv_rooms_get _ _ _ _ Hs Hr) as Hroom.
    pose proof (room_health_ok_get _ _ _ Hroom Ht) as Hht. unfold health_ok in Hht.
    assert (Hq : forall d, health_ok
              (Player.set_isDead d (Player.set_health (Z.max 0 (Player.health t - 15)) t)))
      by (intros d; unfold health_ok; simpl; lia).
    assert (Hq' : health_ok (Player.set_health (Z.max 0 (Player.health t - 15)) t))
      by (unfold health_ok; simpl; lia).
    match goal with |- context [if ?c then _ else _] => destruct c end.
    + match goal with
      | |- context [checkGameOver ?c ?l ?r] =>
          pose proof (checkGameOver_players c l r) as Hps;
          destruct (checkGameOver c l r) as [room3 over]
      end.
      cbn [fst snd] in *. apply health_inv_put_room; auto.
      eapply room_health_ok_players; [exact Hps|].
      repeat apply room_health_ok_put; auto.
    + simpl. apply health_inv_put_room; auto. now apply room_health_ok_put.
  - apply with_player_health; auto. intros ref room p Hr Hp Hroom Hhp.
    cbv beta zeta.
    match goal with
    | |- context [checkGameOver ?c ?l ?r] =>
        pose proof (checkGameOver_players c l r) as Hps;
        destruct (checkGameOver c l r) as [room3 over]
    end.
    cbn [fst snd] in *. apply health_inv_put_room; auto.
    eapply room_health_ok_players; [exact Hps|].
    now apply room_health_ok_put.
  - apply with_player_health; auto. intros ref room p Hr Hp Hroom Hhp; simpl.
    apply health_inv_put_room; auto. apply room_health_ok_put; auto.
    unfold health_ok; simpl; lia.
  - unfold on_disconnect.
    assert (Hs' : health_inv (socket_leaveAll sid s))
      by (eapply health_inv_heap; [|exact Hs]; reflexivity).
    destruct (OMap.get sid _) as [b|]; auto.
    destruct (rooms_get _ _) as [[ref room]|] eqn:Hr; simpl; auto.
    pose proof (health_inv_rooms_get _ _ _ _ Hs' Hr) as Hroom.
    match goal with |- context [if ?c then _ else _] => destruct c end;
      unfold health_inv; simpl; apply Forall_upd_nth; auto;
      unfold room_health_ok; simpl; now apply Forall_delete.
Qed.

Lemma tick_health tid s : health_inv s -> health_inv (fst (tick tid s)).
Proof.
  intros Hs; unfold tick.
  destruct (nth_error (timers s) tid) as [t|]; auto.
  destruct (Timer.cleared t); auto.
  destruct (nth_error (heap s) (Timer.room t)) as [room|] eqn:Hr; auto.
  destruct (Timer.countdown t =? 0); simpl; auto.
  unfold health_inv; simpl. apply Forall_upd_nth; auto.
  unfold room_health_ok; simpl. apply place_health.
  eapply Forall_nth_error in Hr; [exact Hr|exact Hs].
Qed.

Lemma st_lobby_health : health_inv st_lobby.
Proof.
  unfold health_inv; simpl.
  constructor; [|constructor].
  unfold room_health_ok; simpl.
  repeat (constructor; [unfold health_ok; simpl; lia|]). constructor.
Qed.

(** C2, as stated, fails: a playerState report stores the health it carries,
    so Bob's health leaves [0,100] when his client reports 500. *)
Lemma playerState_breaks_health_range :
  health_inv st_lobby /\
  player_of
    (fst (step (Recv "s2" rnd2 (PlayerState "AB12" "p2" 0 0 None None 500 false None))
            st_lobby)) "AB12" "p2"
    = Some (Player.mk "p2" "Bob" "s2" 0 0 None None 500 false None None None) /\
  ~ health_inv
      (fst (step (Recv "s2" rnd2 (PlayerState "AB12" "p2" 0 0 None None 500 false None))
              st_lobby)).
Proof.
  split; [exact st_lobby_health|]. split; [reflexivity|].
  intros H.
  pose proof (Forall_nth_error _ 0%nat _ _ H eq_refl) as Hroom.
  pose proof (Forall_nth_error _ 1%nat _ _ Hroom eq_refl) as Hp.
  unfold health_ok in Hp; simpl in Hp. lia.
Qed.

Lemma playerState_stores s sid code pid x y vx vy h d sh p :
  player_of s code pid = Some p ->
  player_of (fst (on_playerState sid code pid x y vx vy h d sh s)) code pid =
    Some (Player.overwrite x y vx vy h d sh p).
Proof.
  intros Hp. destruct (player_of_inv _ _ _ _ Hp) as (ref & room & Hr & Hg).
  unfold on_playerState, with_player. rewrite Hr, Hg; simpl.
  now apply player_of_put.
Qed.

(** C2, amended. Health stays in [0,100] under every message and every
    countdown tick provided playerState reports carry a health in [0,100];
    playerState stores the reported health as it is; an accepted playerHit
    lowers health by 15 clamped at 0, so a target at health 10 ends at
    health 0 with the death flag set. *)
Theorem health_range_amended :
  (forall i s,
     health_inv s -> reported_health_ok i -> health_inv (fst (step i s))) /\
  (forall s sid rnd code pid x y vx vy h d sh p,
     player_of s code pid = Some p ->
     exists q,
       player_of (fst (handle sid rnd (PlayerState code pid x y vx vy h d sh) s))
         code pid = Some q /\
       Player.health q = h) /\
  (forall s sid rnd code tid aid t a,
     player_of s code tid = Some t ->
     player_of s code aid = Some a ->
     Player.isDead t = false ->
     exists q,
       player_of (fst (handle sid rnd (PlayerHit code tid aid) s)) code tid = Some q /\
       Player.health q = Z.max 0 (Player.health t - 15) /\
       0 <= Player.health q /\
       (Player.health t = 10 -> Player.health q = 0 /\ Player.isDead q = true)).
Proof.
  split; [|split].
  - intros [sid rnd m|tid] s Hs Hi; simpl.
    + now apply handle_health.
    + now apply tick_health.
  - intros s sid rnd code pid x y vx vy h d sh p Hp; simpl.
    rewrite (playerState_stores _ _ _ _ _ _ _ _ _ _ _ _ Hp).
    eexists; split; reflexivity.
  - intros s sid rnd code tid aid t a Ht Ha Hd; simpl.
    destruct (player_of_inv _ _ _ _ Ht) as (ref & room & Hr & Hgt).
    destruct (player_of_inv _ _ _ _ Ha) as (ref' & room'' & Hr' & Hga).
    rewrite Hr in Hr'; inversion Hr'; subst ref' room''.
    destruct (playerHit_applied _ _ _ _ _ _ _ _ Hr Hgt Hga Hd)
      as (room' & q & over & H & Hq & Hh & Hdead & _).
    rewrite H; simpl. exists q. split.
    + unfold player_of, room_of.
      now rewrite (rooms_get_put_room _ _ _ _ room' Hr).
    + split; [exact Hh|]. split; [lia|].
      intros H10. rewrite Hh, Hdead, H10. now simpl.
Qed.

Lemma health_range_amended_witness :
  health_inv
    (fst (step (Recv "s2" rnd2 (PlayerState "AB12" "p2" 5 5 None None 10 false None))
            st_lobby)) /\
  exists q,
    player_of
      (fst (handle "s1" rnd1 (PlayerHit "AB12" "p2" "p1")
              (fst (handle "s2" rnd2
                      (PlayerState "AB12" "p2" 5 5 None None 10 false None) st_lobby))))
      "AB12" "p2" = Some q /\
    Player.health q = 0 /\ Player.isDead q = true.
Proof.
  destruct health_range_amended as (Hinv & _ & Hhit).
  split.
  - apply Hinv; [exact st_lobby_health|simpl; lia].
  - destruct (Hhit
        (fst (handle "s2" rnd2 (PlayerState "AB12" "p2" 5 5 None None 10 false None)
                st_lobby))
        "s1" rnd1 "AB12" "p2" "p1" _ _ eq_refl eq_refl eq_refl)
      as (q & H1 & _ & _ & H2).
    exists q. split; [exact H1|]. apply H2. reflexivity.
Defined.

(** ** The start sequence (joinGame, startGame, the interval) *)

Lemma tick_counting s tid ref c room :
  nth_error (timers s) tid = Some (Timer.mk ref c 0) ->
  nth_error (heap s) ref = Some room ->
  c <> 0 ->
  tick tid s =
    (set_timers (upd_nth tid (Timer.mk ref (c - 1) 0) (timers s)) s,
     [(ToRoom (Room.code room), EvCountdown c)]).
Proof.
  intros Ht Hr Hc; unfold tick; rewrite Ht; simpl; rewrite Hr.
  apply Z.eqb_neq in Hc; now rewrite Hc.
Qed.

Lemma tick_zero s tid ref room :
  nth_error (timers s) tid = Some (Timer.mk ref 0 0) ->
  nth_error (heap s) ref = Some room ->
  let room' := Room.set_players (place 0 (Room.players room)) room in
  tick tid s =
    (set_timers (upd_nth tid (Timer.mk ref (-1) 1) (timers s)) (put_room ref room' s),
     [(ToRoom (Room.code room), EvCountdown 0);
      (ToRoom (Room.code room), gameState_of room')]).
Proof.
  intros Ht Hr; unfold tick; rewrite Ht; simpl; now rewrite Hr.
Qed.

Lemma tick_cleared s tid t :
  nth_error (timers s) tid = Some t -> Timer.cleared t <> O -> tick tid s = (s, []).
Proof.
  intros Ht Hc; unfold tick; rewrite Ht.
  destruct (Timer.cleared t); [congruence|reflexivity].
Qed.

Lemma nth_error_app_length {A} (l : list A) (a : A) :
  nth_error (l ++ [a]) (List.length l) = Some a.
Proof.
  induction l; simpl; auto.
Qed.

(** What joinGame does when the membership it leaves is two players in a
    room that is not started. *)
Lemma joinGame_starts s sid pid pname code ref room0 :
  rooms_get s code = Some (ref, room0) ->
  Room.gameStarted room0 = false ->
  OMap.size (Room.players (addIfAbsent sid pid pname room0)) = 2%nat ->
  let room' := addIfAbsent sid pid pname room0 in
  exists s1,
    on_joinGame sid pid pname code s = (s1, broadcastGameState room') /\
    heap s1 = upd_nth ref (Room.set_gameStarted true room') (heap s) /\
    rooms s1 = rooms s /\
    timers s1 = timers s ++ [Timer.mk ref 3 0].
Proof.
  intros Hr Hg Hsz room'. subst room'. unfold on_joinGame. rewrite Hr.
  cbv zeta. rewrite Hsz.
  assert (Hg' : Room.gameStarted (addIfAbsent sid pid pname room0) = false).
  { unfold addIfAbsent. destruct (OMap.has _ _); auto. }
  rewrite Hg'. cbn [Nat.eqb andb negb].
  eexists; split; [reflexivity|]. simpl.
  repeat split.
  clear. generalize (heap s). intros l. revert ref.
  induction l as [|b l IH]; intros [|n]; simpl; auto. now rewrite IH.
Qed.

Lemma rooms_get_inv s code ref room :
  rooms_get s code = Some (ref, room) ->
  OMap.get code (rooms s) = Some ref /\ nth_error (heap s) ref = Some room.
Proof.
  unfold rooms_get.
  destruct (OMap.get code (rooms s)) as [r|]; try discriminate.
  destruct (nth_error (heap s) r) eqn:E; try discriminate.
  intros H; inversion H; subst; auto.
Qed.

Lemma rooms_get_intro s code ref room :
  OMap.get code (rooms s) = Some ref -> nth_error (heap s) ref = Some room ->
  rooms_get s code = Some (ref, room).
Proof.
  unfold rooms_get; intros H1 H2; now rewrite H1, H2.
Qed.

Lemma tick_counting_next s tid ref c room :
  nth_error (timers s) tid = Some (Timer.mk ref c 0) ->
  nth_error (heap s) ref = Some room ->
  c <> 0 ->
  exists s',
    tick tid s = (s', [(ToRoom (Room.code room), EvCountdown c)]) /\
    heap s' = heap s /\ rooms s' = rooms s /\
    nth_error (timers s') tid = Some (Timer.mk ref (c - 1) 0).
Proof.
  intros Ht Hr Hc. rewrite (tick_counting _ _ _ _ _ Ht Hr Hc).
  eexists; split; [reflexivity|]. simpl. repeat split.
  apply nth_error_upd_nth_eq. eauto using nth_error_some_lt.
Qed.

Lemma tick_zero_next s tid ref room :
  nth_error (timers s) tid = Some (Timer.mk ref 0 0) ->
  nth_error (heap s) ref = Some room ->
  let room' := Room.set_players (place 0 (Room.players room)) room in
  exists s',
    tick tid s =
      (s', [(ToRoom (Room.code room), EvCountdown 0);
            (ToRoom (Room.code room), gameState_of room')]) /\
    nth_error (heap s') ref = Some room' /\ rooms s' = rooms s /\
    nth_error (timers s') tid = Some (Timer.mk ref (-1) 1).
Proof.
  intros Ht Hr room'. rewrite (tick_zero _ _ _ _ Ht Hr).
  eexists; split; [reflexivity|]. simpl. repeat split.
  - apply nth_error_upd_nth_eq. eauto using nth_error_some_lt.
  - apply nth_error_upd_nth_eq. eauto using nth_error_some_lt.
Qed.

(** *** The interval under arbitrary interleaving

    Handlers never touch an existing interval and never shrink the heap, so
    the values an interval emits are an initial segment of 3, 2, 1, 0
    whatever messages and other firings come in between. *)

Lemma with_player_timers s code pid k :
  (forall ref room p, timers (fst (k ref room p)) = timers s) ->
  timers (fst (with_player code pid s k)) = timers s.
Proof.
  intros Hk; unfold with_player.
  destruct (rooms_get s code) as [[ref room]|]; auto.
  destruct (OMap.get pid (Room.players room)); auto.
Qed.

Lemma with_player_heap_length s code pid k :
  (forall ref room p,
     List.length (heap (fst (k ref room p))) = List.length (heap s)) ->
  List.length (heap (fst (with_player code pid s k))) = List.length (heap s).
Proof.
  intros Hk; unfold with_player.
  destruct (rooms_get s code) as [[ref room]|]; auto.
  destruct (OMap.get pid (Room.players room)); auto.
Qed.

Lemma joinRoom_timers s sid rnd pname code :
  timers (fst (joinRoom sid rnd pname code s)) = timers s.
Proof.
  unfold joinRoom.
  destruct (rooms_get s code) as [[ref room]|]; auto.
  destruct (2 <=? _)%nat; auto.
Qed.

Lemma joinRoom_heap_length s sid rnd pname code :
  List.length (heap (fst (joinRoom sid rnd pname code s))) = List.length (heap s).
Proof.
  unfold joinRoom.
  destruct (rooms_get s code) as [[ref room]|]; auto.
  destruct (2 <=? _)%nat; auto. simpl. apply upd_nth_length.
Qed.

Lemma handle_timers s sid rnd m :
  exists l, timers (fst (handle sid rnd m s)) = timers s ++ l.
Proof.
  destruct m; simpl;
    try (exists []; rewrite app_nil_r;
         first [ reflexivity | apply joinRoom_timers
               | apply with_player_timers; intros; cbv beta zeta;
                 try destruct (checkGameOver _ _ _); reflexivity ]).
  - exists []; rewrite app_nil_r. unfold on_joinRandomRoom.
    destruct (findOpenRoom _ _); [apply joinRoom_timers|reflexivity].
  - unfold on_joinGame. destruct (rooms_get s _) as [[ref room]|].
    + destruct (_ && _); simpl; [eexists; reflexivity|].
      exists []; now rewrite app_nil_r.
    + exists []; now rewrite app_nil_r.
  - exists []; rewrite app_nil_r. unfold on_playerHit.
    destruct (rooms_get s _) as [[ref room]|]; auto.
    do 2 (destruct (OMap.get _ _); auto).
    destruct (Player.isDead _); auto.
    destruct (_ && _); auto.
    destruct (checkGameOver _ _ _); reflexivity.
  - exists []; rewrite app_nil_r. unfold on_disconnect.
    destruct (OMap.get sid _); auto.
    destruct (rooms_get _ _) as [[ref room]|]; auto.
    simpl. destruct (_ =? _)%nat; reflexivity.
Qed.

Lemma handle_heap_length s sid rnd m :
  (List.length (heap s) <= List.length (heap (fst (handle sid rnd m s))))%nat.
Proof.
  destruct m; simpl;
    try (apply Nat.eq_le_incl; symmetry;
         first [ reflexivity | apply joinRoom_heap_length
               | apply with_player_heap_length; intros; cbv beta zeta;
                 try destruct (checkGameOver _ _ _); simpl; apply upd_nth_length ]).
  - rewrite length_app; simpl; lia.
  - unfold on_joinRandomRoom. destruct (findOpenRoom _ _).
    + rewrite joinRoom_heap_length; lia.
    + simpl. rewrite length_app; simpl; lia.
  - unfold on_joinGame. destruct (rooms_get s _) as [[ref room]|]; auto.
    destruct (_ && _); simpl; rewrite ?upd_nth_length; lia.
  - unfold on_playerHit.
    destruct (rooms_get s _) as [[ref room]|]; auto.
    do 2 (destruct (OMap.get _ _); auto).
    destruct (Player.isDead _); auto.
    destruct (_ && _); [destruct (checkGameOver _ _ _)|]; simpl;
      rewrite upd_nth_length; lia.
  - unfold on_disconnect.
    destruct (OMap.get sid _); simpl; auto.
    destruct (rooms_get _ _) as [[ref room]|]; simpl; auto.
    destruct (_ =? _)%nat; simpl; rewrite upd_nth_length; lia.
Qed.

Lemma tick_heap_length tid s :
  List.length (heap (fst (tick tid s))) = List.length (heap s).
Proof.
  unfold tick.
  destruct (nth_error (timers s) tid) as [t|]; auto.
  destruct (Timer.cleared t); auto.
  destruct (nth_error (heap s) (Timer.room t)); auto.
  destruct (_ =? _); simpl; auto. apply upd_nth_length.
Qed.

Lemma tick_other_timer tid tid' s t :
  tid' <> tid -> nth_error (timers s) tid = Some t ->
  nth_error (timers (fst (tick tid' s))) tid = Some t.
Proof.
  intros Hne Ht; unfold tick.
  destruct (nth_error (timers s) tid') as [t'|]; auto.
  destruct (Timer.cleared t'); auto.
  destruct (nth_error (heap s) (Timer.room t')); auto.
  destruct (_ =? _); simpl; now rewrite nth_error_upd_nth_neq.
Qed.

Lemma step_other_timer tid i s t :
  is_fire tid i = false -> nth_error (timers s) tid = Some t ->
  nth_error (timers (fst (step i s))) tid = Some t.
Proof.
  destruct i as [sid rnd m|tid']; simpl; intros Hf Ht.
  - destruct (handle_timers s sid rnd m) as [l Hl]. rewrite Hl.
    rewrite nth_error_app1; eauto using nth_error_some_lt.
  - apply tick_other_timer; auto. now apply Nat.eqb_neq.
Qed.

Lemma step_heap_length i s :
  (List.length (heap s) <= List.length (heap (fst (step i s))))%nat.
Proof.
  destruct i; simpl; [apply handle_heap_length|rewrite tick_heap_length; lia].
Qed.

Lemma fired_cleared tid ins : forall s t,
  nth_error (timers s) tid = Some t -> Timer.cleared t <> O ->
  fired tid ins s = [].
Proof.
  induction ins as [|i ins IH]; intros s t Ht Hc; simpl; auto.
  destruct (is_fire tid i) eqn:Hf.
  - destruct i as [|tid']; simpl in Hf; [discriminate|].
    apply Nat.eqb_eq in Hf; subst tid'. simpl.
    rewrite (tick_cleared _ _ _ Ht Hc); simpl. eauto.
  - simpl. eapply IH; [apply step_other_timer; eauto|assumption].
Qed.

(** An interval whose local countdown is [n] emits, over any sequence of
    inputs, an initial segment of n, n-1, ..., 0. *)
Lemma fired_prefix tid ref ins : forall n s,
  nth_error (timers s) tid = Some (Timer.mk ref (Z.of_nat n) 0) ->
  (ref < List.length (heap s))%nat ->
  exists k, fired tid ins s = firstn k (countdown_from n).
Proof.
  induction ins as [|i ins IH]; intros n s Ht Hh; simpl.
  - exists O; reflexivity.
  - destruct (is_fire tid i) eqn:Hf.
    + destruct i as [|tid']; simpl in Hf; [discriminate|].
      apply Nat.eqb_eq in Hf; subst tid'. simpl.
      destruct (nth_error (heap s) ref) as [room|] eqn:Hr;
        [|apply nth_error_None in Hr; lia].
      destruct n as [|n].
      * destruct (tick_zero_next _ _ _ _ Ht Hr) as (s' & Hk & _ & _ & Ht').
        rewrite Hk; simpl.
        rewrite (fired_cleared _ _ _ _ Ht'); [|discriminate].
        exists 1%nat; reflexivity.
      * destruct (tick_counting_next _ _ _ _ _ Ht Hr ltac:(lia))
          as (s' & Hk & Hh' & _ & Ht').
        rewrite Hk; simpl.
        replace (Z.of_nat (S n) - 1) with (Z.of_nat n) in Ht' by lia.
        destruct (IH n s' Ht') as [k Hfk]; [now rewrite Hh'|].
        exists (S k). rewrite Hfk.
        change (Z.pos (Pos.of_succ_nat n)) with (Z.of_nat (S n)). reflexivity.
    + simpl. apply IH.
      * apply step_other_timer; auto.
      * eapply Nat.lt_le_trans; [exact Hh|apply step_heap_length].
Qed.

(** C6, as stated, fails: the session [lobby] brings room AB12 to exactly
    two players by joinRoom while it is not started, and no start sequence
    follows: [gameStarted] stays false, no interval exists, and timer
    firings emit no countdown. *)
Lemma joinRoom_reaching_two_starts_nothing :
  exists r,
    room_of st_lobby "AB12" = Some r /\
    OMap.size (Room.players r) = 2%nat /\
    Room.gameStarted r = false /\
    timers st_lobby = [] /\
    run [Fire 0; Fire 0; Fire 0; Fire 0] st_lobby = (st_lobby, [[]; []; []; []]).
Proof.
  eexists; repeat split.
Qed.

(** C6, amended. When a joinGame message leaves its room with exactly two
    players while [gameStarted] is false, the handler broadcasts the
    gameState, sets [gameStarted] to true and creates an interval whose
    first three firings emit countdown 3, 2, 1 to the room without cancelling
    it; the fourth firing emits countdown 0, cancels the interval (its only
    cancellation), places the first player at (250,300) and the second at
    (750,300) and broadcasts the gameState snapshot; a cancelled interval
    does nothing more.  Whatever messages and other firings are interleaved,
    the values this interval emits are an initial segment of 3, 2, 1, 0.
    (Reaching two players by joinRoom or joinRandomRoom starts nothing.) *)
Theorem start_sequence s sid rnd pid pname code ref room0 k1 p1 k2 p2 :
  rooms_get s code = Some (ref, room0) ->
  Room.gameStarted room0 = false ->
  Room.players (addIfAbsent sid pid pname room0) = [(k1, p1); (k2, p2)] ->
  let tid := List.length (timers s) in
  let c := Room.code room0 in
  exists s1 room1 s4 s5 room5,
    handle sid rnd (JoinGame pid pname code) s =
      (s1, [(ToRoom c, gameState_of (addIfAbsent sid pid pname room0))]) /\
    rooms_get s1 code = Some (ref, room1) /\
    Room.gameStarted room1 = true /\
    Room.players room1 = [(k1, p1); (k2, p2)] /\
    nth_error (timers s1) tid = Some (Timer.mk ref 3 0) /\
    run [Fire tid; Fire tid; Fire tid] s1 =
      (s4, [[(ToRoom c, EvCountdown 3)];
            [(ToRoom c, EvCountdown 2)];
            [(ToRoom c, EvCountdown 1)]]) /\
    nth_error (timers s4) tid = Some (Timer.mk ref 0 0) /\
    step (Fire tid) s4 =
      (s5, [(ToRoom c, EvCountdown 0); (ToRoom c, gameState_of room5)]) /\
    rooms_get s5 code = Some (ref, room5) /\
    Room.players room5 =
      [(k1, Player.set_xy 250 300 p1); (k2, Player.set_xy 750 300 p2)] /\
    Room.gameStarted room5 = true /\
    nth_error (timers s5) tid = Some (Timer.mk ref (-1) 1) /\
    step (Fire tid) s5 = (s5, []) /\
    (forall ins, exists k, fired tid ins s1 = firstn k [3; 2; 1; 0]).
Proof.
  intros Hr Hg Hps tid c.
  destruct (rooms_get_inv _ _ _ _ Hr) as [Hreg Hheap].
  assert (Hsz : OMap.size (Room.players (addIfAbsent sid pid pname room0)) = 2%nat)
    by (unfold OMap.size; now rewrite Hps).
  assert (Hcode : Room.code (addIfAbsent sid pid pname room0) = c)
    by (unfold addIfAbsent; now destruct (OMap.has _ _)).
  destruct (joinGame_starts _ _ _ _ _ _ _ Hr Hg Hsz) as (s1 & Hj & Hh1 & Hr1 & Ht1).
  set (room1 := Room.set_gameStarted true (addIfAbsent sid pid pname room0)) in *.
  assert (Hroom1 : nth_error (heap s1) ref = Some room1)
    by (rewrite Hh1; apply nth_error_upd_nth_eq; eauto using nth_error_some_lt).
  assert (Htm1 : nth_error (timers s1) tid = Some (Timer.mk ref 3 0))
    by (rewrite Ht1; apply nth_error_app_length).
  assert (Hc1 : Room.code room1 = c) by exact Hcode.
  destruct (tick_counting_next _ _ _ _ _ Htm1 Hroom1 ltac:(lia))
    as (s2 & Hk2 & Hh2 & Hr2 & Htm2).
  rewrite <- Hh2 in Hroom1.
  destruct (tick_counting_next _ _ _ _ _ Htm2 Hroom1 ltac:(lia))
    as (s3 & Hk3 & Hh3 & Hr3 & Htm3).
  rewrite <- Hh3 in Hroom1.
  destruct (tick_counting_next _ _ _ _ _ Htm3 Hroom1 ltac:(lia))
    as (s4 & Hk4 & Hh4 & Hr4 & Htm4).
  rewrite <- Hh4 in Hroom1.
  destruct (tick_zero_next _ _ _ _ Htm4 Hroom1) as (s5 & Hk5 & Hh5 & Hr5 & Htm5).
  rewrite Hc1 in *.
  exists s1, room1, s4, s5, (Room.set_players (place 0 (Room.players room1)) room1).
  split; [cbn [handle]; rewrite Hj; unfold broadcastGameState; now rewrite Hcode|].
  split; [apply rooms_get_intro; [now rewrite Hr1|now rewrite Hh4, Hh3, Hh2 in Hroom1]|].
  split; [reflexivity|].
  split; [exact Hps|].
  split; [exact Htm1|].
  split; [cbn [run step]; rewrite Hk2, Hk3, Hk4; reflexivity|].
  split; [exact Htm4|].
  split; [exact Hk5|].
  split; [apply rooms_get_intro; [now rewrite Hr5, Hr4, Hr3, Hr2, Hr1|exact Hh5]|].
  split; [simpl; rewrite Hps; reflexivity|].
  split; [reflexivity|].
  split; [exact Htm5|].
  split; [simpl; eapply tick_cleared; [exact Htm5|discriminate]|].
  intros ins. apply (fired_prefix tid ref ins 3 s1 Htm1).
  rewrite Hh1, upd_nth_length. eauto using nth_error_some_lt.
Qed.

Lemma start_sequence_witness :
  exists s1 s4 s5 room5,
    fst (handle "s2" rnd2 (JoinGame "p2" "Bob" "AB12") st_lobby) = s1 /\
    run [Fire 0; Fire 0; Fire 0] s1 =
      (s4, [[(ToRoom "AB12", EvCountdown 3)];
            [(ToRoom "AB12", EvCountdown 2)];
            [(ToRoom "AB12", EvCountdown 1)]]) /\
    step (Fire 0) s4 =
      (s5, [(ToRoom "AB12", EvCountdown 0); (ToRoom "AB12", gameState_of room5)]) /\
    Room.players room5 =
      [("p1", Player.set_xy 250 300 (Player.fresh "p1" "Alice" "s1"));
       ("p2", Player.set_xy 750 300 (Player.fresh "p2" "Bob" "s2"))].
Proof.
  destruct (start_sequence st_lobby "s2" rnd2 "p2" "Bob" "AB12" 0%nat _
              "p1" (Player.fresh "p1" "Alice" "s1")
              "p2" (Player.fresh "p2" "Bob" "s2") eq_refl eq_refl eq_refl)
    as (s1 & room1 & s4 & s5 & room5 & H1 & _ & _ & _ & _ & H2 & _ & H3 & _ & H4 & _).
  exists s1, s4, s5, room5.
  split; [rewrite H1; reflexivity|].
  split; [exact H2|]. split; [exact H3|exact H4].
Defined.

(** ** Room capacity *)

Lemma st_lobby_le2 : rooms_le2 st_lobby.
Proof.
  intros code r. unfold room_of, rooms_get; simpl.
  destruct (String.eqb code "AB12"); [|discriminate].
  intros H; inversion H; subst; simpl. lia.
Qed.

Lemma heap_le2_get s code ref room :
  heap_le2 s -> rooms_get s code = Some (ref, room) -> room_le2 room.
Proof.
  intros Hs Hr.
  apply (Forall_nth_error room_le2 ref room (heap s) Hs).
  eapply rooms_get_heap; eauto.
Qed.

Lemma heap_le2_rooms s : heap_le2 s -> rooms_le2 s.
Proof.
  intros Hs code r. unfold room_of.
  destruct (rooms_get s code) as [[ref room]|] eqn:Hr; [|discriminate].
  intros H; inversion H; subst.
  eapply heap_le2_get; eauto.
Qed.

Lemma heap_le2_heap s s' : heap s' = heap s -> heap_le2 s -> heap_le2 s'.
Proof.
  unfold heap_le2; intros H; now rewrite H.
Qed.

Lemma heap_le2_put_room s ref room :
  heap_le2 s -> room_le2 room -> heap_le2 (put_room ref room s).
Proof.
  unfold heap_le2; simpl; intros; now apply Forall_upd_nth.
Qed.

Lemma room_le2_put ref room pid p q :
  room_le2 room -> OMap.get pid (Room.players room) = Some p ->
  room_le2 (put_player ref room pid q).
Proof.
  unfold room_le2, put_player; simpl; intros Hle Hg.
  rewrite size_set_has; auto. unfold OMap.has; now rewrite Hg.
Qed.

Lemma place_size i (ps : OMap.t Player.t) : OMap.size (place i ps) = OMap.size ps.
Proof.
  unfold OMap.size; revert i; induction ps as [|[k p] ps IH]; intros i; simpl; auto.
Qed.

Lemma delete_size {V} k (m : OMap.t V) : (OMap.size (OMap.delete k m) <= OMap.size m)%nat.
Proof.
  unfold OMap.size, OMap.delete. apply filter_length_le.
Qed.

Lemma with_player_le2 s code pid k :
  heap_le2 s ->
  (forall ref room p,
     rooms_get s code = Some (ref, room) ->
     OMap.get pid (Room.players room) = Some p ->
     room_le2 room ->
     heap_le2 (fst (k ref room p))) ->
  heap_le2 (fst (with_player code pid s k)).
Proof.
  intros Hs Hk; unfold with_player.
  destruct (rooms_get s code) as [[ref room]|] eqn:Hr; auto.
  destruct (OMap.get pid (Room.players room)) as [p|] eqn:Hp; auto.
  apply Hk; auto. eapply heap_le2_get; eauto.
Qed.

Lemma joinRoom_le2 s sid rnd pname code :
  heap_le2 s -> heap_le2 (fst (joinRoom sid rnd pname code s)).
Proof.
  intros Hs; unfold joinRoom.
  destruct (rooms_get s code) as [[ref room]|] eqn:Hr; auto.
  destruct (2 <=? OMap.size (Room.players room))%nat eqn:E; auto.
  simpl. eapply heap_le2_heap with (s := put_room ref _ s); [reflexivity|].
  apply heap_le2_put_room; auto.
  apply Nat.leb_gt in E. unfold room_le2; simpl.
  destruct (OMap.has (generatePlayerId rnd) (Room.players room)) eqn:Hh.
  - rewrite size_set_has; auto; lia.
  - rewrite size_set_new; auto; lia.
Qed.

Lemma openRoom_le2 s sid rnd pname :
  heap_le2 s -> heap_le2 (openRoom sid rnd pname s).
Proof.
  unfold heap_le2, openRoom; simpl; intros Hs.
  apply Forall_app; split; auto.
  constructor; [|constructor]. unfold room_le2; simpl; lia.
Qed.

(** Every handler other than joinGame keeps every room at two players or
    fewer, and so does the countdown interval. *)
Lemma capacity_kept_except_joinGame s sid rnd m :
  heap_le2 s ->
  (forall pid pname code, m <> JoinGame pid pname code) ->
  heap_le2 (fst (handle sid rnd m s)).
Proof.
  intros Hs Hm; destruct m; simpl in *;
    try (apply with_player_le2; auto; intros ref room p Hr Hp Hroom; cbv beta zeta;
         try match goal with
           | |- context [checkGameOver ?c ?l ?r] =>
               pose proof (checkGameOver_players c l r) as Hps;
               destruct (checkGameOver c l r) as [room3 over]; cbn [fst snd] in *
           end;
         apply heap_le2_put_room; auto;
         try (unfold room_le2; rewrite Hps; fold (room_le2 (put_player ref room playerId
                (Player.set_isDead true p))));
         eapply room_le2_put; eauto).
  - now apply openRoom_le2.
  - unfold on_joinRandomRoom. destruct (findOpenRoom _ _).
    + now apply joinRoom_le2.
    + now apply openRoom_le2.
  - now apply joinRoom_le2.
  - exfalso; eapply Hm; reflexivity.
  - assumption.
  - unfold on_playerHit.
    destruct (rooms_get s _) as [[ref room]|] eqn:Hr; auto.
    destruct (OMap.get targetId _) as [t|] eqn:Ht; auto.
    destruct (OMap.get attackerId _) as [a|] eqn:Ha; auto.
    destruct (Player.isDead t) eqn:Hd; auto.
    assert (Hroom : room_le2 room) by (eapply heap_le2_get; eauto).
    assert (H1 : forall q, room_le2 (put_player ref room targetId q))
      by (intros q; eapply room_le2_put; eauto).
    match goal with |- context [if ?c then _ else _] => destruct c end.
    + match goal with
      | |- context [checkGameOver ?c ?l ?r] =>
          pose proof (checkGameOver_players c l r) as Hps;
          destruct (checkGameOver c l r) as [room3 over]
      end.
      cbn [fst snd] in *. apply heap_le2_put_room; auto.
      unfold room_le2; rewrite Hps.
      eapply room_le2_put with (ref := ref); [apply H1|].
      unfold put_player; simpl; apply get_set_eq.
    + simpl. apply heap_le2_put_room; auto.
  - unfold on_disconnect.
    assert (Hs' : heap_le2 (socket_leaveAll sid s))
      by (eapply heap_le2_heap; [|exact Hs]; reflexivity).
    destruct (OMap.get sid _) as [b|]; auto.
    destruct (rooms_get _ _) as [[ref room]|] eqn:Hr; simpl; auto.
    assert (Hroom : room_le2 room) by (eapply heap_le2_get; eauto).
    match goal with |- context [if ?c then _ else _] => destruct c end;
      unfold heap_le2; simpl; apply Forall_upd_nth; auto;
      unfold room_le2 in *; simpl;
      (eapply Nat.le_trans; [apply delete_size|exact Hroom]).
Qed.

Lemma capacity_kept_by_tick tid s : heap_le2 s -> heap_le2 (fst (tick tid s)).
Proof.
  intros Hs; unfold tick.
  destruct (nth_error (timers s) tid) as [t|]; auto.
  destruct (Timer.cleared t); auto.
  destruct (nth_error (heap s) (Timer.room t)) as [room|] eqn:Hr; auto.
  destruct (Timer.countdown t =? 0); simpl; auto.
  unfold heap_le2; simpl. apply Forall_upd_nth; auto.
  unfold room_le2; simpl. rewrite place_size.
  apply (Forall_nth_error room_le2 _ _ _ Hs Hr).
Qed.

(** C1. The bound of two players per room is kept by joinRoom's capacity
    check but not by joinGame, which has none: after [lobby], a joinGame
    from a third socket under a new player id leaves room AB12 with three
    players. *)
Theorem joinGame_admits_third_player :
  rooms_le2 st_lobby /\
  (exists r,
     room_of (fst (handle "s3" rnd3 (JoinGame "p3" "Carol" "AB12") st_lobby)) "AB12"
       = Some r /\
     OMap.keys (Room.players r) = ["p1"; "p2"; "p3"] /\
     OMap.size (Room.players r) = 3%nat) /\
  ~ rooms_le2 (fst (handle "s3" rnd3 (JoinGame "p3" "Carol" "AB12") st_lobby)).
Proof.
  split; [exact st_lobby_le2|]. split.
  - eexists; repeat split.
  - intros H. specialize (H "AB12" _ eq_refl). simpl in H. lia.
Qed.

(** ** Game over *)

(** C3. In [match_play] the seventh hit kills Alice and emits gameOver; her
    client's playerDied report then emits gameOver a second time, because
    playerDied repeats the survivor check without testing whether the player
    was already dead (playerHit does test it). *)
Theorem playerDied_after_kill_repeats_gameOver :
  gameOvers (snd (run match_play init)) =
    [(ToRoom "AB12", EvGameOver "p2" "p1"); (ToRoom "AB12", EvGameOver "p2" "p1")] /\
  nth_error (snd (run match_play init)) 14 =
    Some [(ToRoom "AB12", EvGameOver "p2" "p1");
          (ToRoom "AB12", EvPlayerHit "p1" "p2" 15)] /\
  nth_error (snd (run match_play init)) 15 =
    Some [(ToRoom "AB12", EvGameOver "p2" "p1")].
Proof.
  repeat split; vm_compute; reflexivity.
Qed.

(** ** Disconnect *)

(** Whatever the state, the name carried by playerDisconnected is the
    placeholder: the lookup of the player's name comes after the player was
    deleted from the room. *)
Lemma disconnect_name_is_placeholder s sid o :
  In o (snd (on_disconnect sid s)) ->
  exists pid code, o = (ToOthers sid code, EvPlayerDisconnected pid "Player").
Proof.
  unfold on_disconnect.
  destruct (OMap.get sid _) as [b|]; simpl; [|tauto].
  destruct (rooms_get _ _) as [[ref room]|]; simpl; [|tauto].
  rewrite get_delete_eq; simpl.
  intros [H|[]]; subst o; eauto.
Qed.

(** C4. When Alice's socket disconnects from room AB12 (Alice and Bob
    inside), Alice is removed, the room stays registered with Bob alone, the
    binding of the socket is removed and playerDisconnected goes to the
    other sockets of the room; but the event carries the name "Player", not
    the stored name "Alice". *)
Theorem disconnect_loses_player_name :
  (exists p, player_of st_lobby "AB12" "p1" = Some p /\ Player.name p = "Alice") /\
  snd (handle "s1" rnd1 Disconnect st_lobby) =
    [(ToOthers "s1" "AB12", EvPlayerDisconnected "p1" "Player")] /\
  recipients (fst (handle "s1" rnd1 Disconnect st_lobby)) (ToOthers "s1" "AB12") = ["s2"] /\
  (exists r,
     room_of (fst (handle "s1" rnd1 Disconnect st_lobby)) "AB12" = Some r /\
     OMap.keys (Room.players r) = ["p2"]) /\
  OMap.get "s1" (players (fst (handle "s1" rnd1 Disconnect st_lobby))) = None /\
  rooms (fst (handle "s2" rnd2 Disconnect (fst (handle "s1" rnd1 Disconnect st_lobby)))) = [].
Proof.
  split; [eexists; split; reflexivity|].
  split; [reflexivity|].
  split; [reflexivity|].
  split; [eexists; split; reflexivity|].
  split; reflexivity.
Qed.

(** * Further properties of the handlers *)

(** ** Keys of insertion-ordered maps *)

Section OMapKeys.
Context {V : Type}.
Implicit Types (m : OMap.t V) (k : string) (v : V).

Lemma get_none_keys k m : OMap.get k m = None <-> ~ In k (OMap.keys m).
Proof.
  induction m as [|[k' v'] m IH]; simpl; [tauto|].
  destruct (String.eqb_spec k k'); split; intros H.
  - discriminate.
  - exfalso; apply H; left; congruence.
  - intros [E|E]; [congruence|]. now apply IH.
  - apply IH; tauto.
Qed.

Lemma get_some_keys k v m : OMap.get k m = Some v -> In k (OMap.keys m).
Proof.
  intros H. destruct (in_dec string_dec k (OMap.keys m)) as [Hi|Hn]; auto.
  apply get_none_keys in Hn; congruence.
Qed.

Lemma keys_set_present k v v0 m :
  OMap.get k m = Some v0 -> OMap.keys (OMap.set k v m) = OMap.keys m.
Proof.
  induction m as [|[k' v'] m IH]; simpl; try discriminate.
  destruct (String.eqb_spec k k'); simpl; intros H.
  - congruence.
  - now rewrite IH.
Qed.

Lemma keys_set_absent k v m :
  OMap.get k m = None -> OMap.keys (OMap.set k v m) = OMap.keys m ++ [k].
Proof.
  induction m as [|[k' v'] m IH]; simpl; auto.
  destruct (String.eqb_spec k k'); simpl; intros H; try discriminate.
  now rewrite IH.
Qed.

Lemma NoDup_keys_set k v m :
  NoDup (OMap.keys m) -> NoDup (OMap.keys (OMap.set k v m)).
Proof.
  intros Hm. destruct (OMap.get k m) as [v0|] eqn:E.
  - now rewrite (keys_set_present _ _ _ _ E).
  - rewrite (keys_set_absent _ _ _ E).
    apply NoDup_app; [assumption|constructor; [simpl; tauto|constructor]|].
    intros x Hx [Hk|[]]; subst x. now apply get_none_keys in E.
Qed.

Lemma In_delete x k m : In x (OMap.delete k m) -> In x m /\ fst x <> k.
Proof.
  unfold OMap.delete; intros H. apply filter_In in H as [H1 H2].
  split; auto. apply negb_true_iff in H2.
  destruct (String.eqb_spec k (fst x)); congruence.
Qed.

Lemma NoDup_keys_delete k m :
  NoDup (OMap.keys m) -> NoDup (OMap.keys (OMap.delete k m)).
Proof.
  unfold OMap.keys, OMap.delete.
  induction m as [|[k' v'] m IH]; simpl; intros H; [constructor|].
  inversion H as [|? ? Hn Hm]; subst.
  destruct (negb _); simpl; auto.
  constructor; auto.
  intros Hi. apply Hn. apply in_map_iff in Hi as (x & Hx & Hin).
  apply filter_In in Hin as [Hin _]. apply in_map_iff; eauto.
Qed.

Lemma NoDup_values_delete k (m : OMap.t nat) :
  NoDup (OMap.values m) -> NoDup (OMap.values (OMap.delete k m)).
Proof.
  unfold OMap.values, OMap.delete.
  induction m as [|[k' v'] m IH]; simpl; intros H; [constructor|].
  inversion H as [|? ? Hn Hm]; subst.
  destruct (negb _); simpl; auto.
  constructor; auto.
  intros Hi. apply Hn. apply in_map_iff in Hi as (x & Hx & Hin).
  apply filter_In in Hin as [Hin _]. apply in_map_iff; eauto.
Qed.

Lemma get_delete_neq k k' m :
  k <> k' -> OMap.get k' (OMap.delete k m) = OMap.get k' m.
Proof.
  intros Hk; unfold OMap.delete.
  induction m as [|[k0 v0] m IH]; simpl; auto.
  destruct (String.eqb_spec k k0); simpl.
  - subst k0. destruct (String.eqb_spec k' k); congruence.
  - now rewrite IH.
Qed.

Lemma size_delete_present k v m :
  NoDup (OMap.keys m) -> OMap.get k m = Some v ->
  S (OMap.size (OMap.delete k m)) = OMap.size m.
Proof.
  unfold OMap.size, OMap.delete.
  induction m as [|[k' v'] m IH]; simpl; try discriminate.
  intros Hnd. inversion Hnd as [|? ? Hn Hm]; subst.
  destruct (String.eqb_spec k k'); simpl; intros H.
  - subst k'. f_equal.
    assert (Hall : forall x, In x m ->
              negb (String.eqb k (fst x)) = true).
    { intros x Hx. apply negb_true_iff.
      destruct (String.eqb_spec k (fst x)); auto.
      exfalso; apply Hn. apply in_map_iff; exists x; auto. }
    clear -Hall. induction m as [|x m IH]; simpl; auto.
    rewrite (Hall x (or_introl eq_refl)); simpl. f_equal.
    apply IH. intros y Hy; apply Hall; now right.
  - f_equal. now apply IH.
Qed.
End OMapKeys.

(** ** Consistency is kept by every handler and by the interval *)

Lemma room_wf_get room pid p :
  room_wf room -> OMap.get pid (Room.players room) = Some p -> Player.id p = pid.
Proof.
  intros (_ & _ & _ & Hid) Hg. rewrite Forall_forall in Hid.
  apply (Hid (pid, p)). now apply get_In.
Qed.

Lemma room_wf_put ref room pid p q :
  room_wf room -> OMap.get pid (Room.players room) = Some p ->
  Player.id q = Player.id p -> room_wf (put_player ref room pid q).
Proof.
  intros Hwf Hg Hq. pose proof (room_wf_get _ _ _ Hwf Hg) as Hp.
  destruct Hwf as (Hc & Hl & Hnd & Hid).
  unfold room_wf, put_player; simpl. repeat split; auto.
  - now rewrite (keys_set_present _ _ _ _ Hg).
  - apply Forall_set; auto. simpl; congruence.
Qed.

Lemma room_wf_add room pid pname sid :
  room_wf room ->
  room_wf (Room.set_players
             (OMap.set pid (Player.fresh pid pname sid) (Room.players room)) room).
Proof.
  intros (Hc & Hl & Hnd & Hid). unfold room_wf; simpl. repeat split; auto.
  - now apply NoDup_keys_set.
  - apply Forall_set; auto.
Qed.

Lemma room_wf_delete room pid :
  room_wf room ->
  room_wf (Room.set_players (OMap.delete pid (Room.players room)) room).
Proof.
  intros (Hc & Hl & Hnd & Hid). unfold room_wf; simpl. repeat split; auto.
  - now apply NoDup_keys_delete.
  - now apply Forall_delete.
Qed.

Lemma place_keys i ps : OMap.keys (place i ps) = OMap.keys ps.
Proof.
  unfold OMap.keys; revert i; induction ps as [|[k p] ps IH]; intros i; simpl; auto.
  now rewrite IH.
Qed.

Lemma room_wf_place room :
  room_wf room ->
  room_wf (Room.set_players (place 0 (Room.players room)) room).
Proof.
  intros (Hc & Hl & Hnd & Hid). unfold room_wf; simpl. repeat split; auto.
  - now rewrite place_keys.
  - clear -Hid. generalize 0%nat.
    induction Hid as [|[k p] ps Hp Hps IH]; intros i; simpl; constructor; auto.
Qed.

Lemma room_wf_gameStarted b room :
  room_wf room -> room_wf (Room.set_gameStarted b room).
Proof.
  intros (Hc & Hl & Hnd & Hid). unfold room_wf; simpl. auto.
Qed.

Lemma checkGameOver_wf code loser room :
  room_wf room ->
  room_wf (fst (checkGameOver code loser room)) /\
  Room.code (fst (checkGameOver code loser room)) = Room.code room.
Proof.
  intros Hwf.
  destruct (checkGameOver_shape code loser room) as [H|(last & _ & H)];
    rewrite H; simpl; auto using room_wf_gameStarted.
Qed.

Lemma addIfAbsent_wf sid pid pname room :
  room_wf room ->
  room_wf (addIfAbsent sid pid pname room) /\
  Room.code (addIfAbsent sid pid pname room) = Room.code room.
Proof.
  intros Hwf; unfold addIfAbsent. destruct (OMap.has _ _); auto.
  split; [now apply room_wf_add|reflexivity].
Qed.

Lemma consistent_frame s s' :
  heap s' = heap s -> rooms s' = rooms s -> timers s' = timers s ->
  consistent s -> consistent s'.
Proof.
  unfold consistent, registry_wf, timers_wf. intros Hh Hr Ht.
  now rewrite Hh, Hr, Ht.
Qed.

Lemma consistent_put_room s ref room room' :
  consistent s -> nth_error (heap s) ref = Some room ->
  room_wf room' -> Room.code room' = Room.code room ->
  consistent (put_room ref room' s).
Proof.
  intros (Hheap & (Hk & Hv & Hreg) & Ht) Hn Hwf Hcode.
  unfold consistent, registry_wf, timers_wf; simpl.
  split; [now apply Forall_upd_nth|].
  split; [|now rewrite upd_nth_length].
  repeat split; auto.
  eapply Forall_impl; [|exact Hreg]. intros [code r] (r0 & Hr0 & Hc); simpl in *.
  destruct (Nat.eq_dec ref r) as [->|Hne].
  - exists room'. split.
    + apply nth_error_upd_nth_eq. eauto using nth_error_some_lt.
    + congruence.
  - exists r0. now rewrite nth_error_upd_nth_neq.
Qed.

Lemma consistent_rooms_get s code ref room :
  consistent s -> rooms_get s code = Some (ref, room) ->
  nth_error (heap s) ref = Some room /\ room_wf room /\ Room.code room = code.
Proof.
  intros (Hheap & (Hk & Hv & Hreg) & Ht) Hr.
  destruct (rooms_get_inv _ _ _ _ Hr) as [Hg Hn].
  split; auto. split; [eapply Forall_nth_error; eauto|].
  rewrite Forall_forall in Hreg.
  destruct (Hreg (code, ref) (get_In _ _ _ Hg)) as (r0 & Hr0 & Hc).
  simpl in *. congruence.
Qed.

Lemma consistent_startGame s ref room :
  consistent s -> nth_error (heap s) ref = Some room ->
  consistent (startGame ref room s).
Proof.
  intros Hs Hn. unfold startGame.
  pose proof (consistent_put_room _ _ _ (Room.set_gameStarted true room) Hs Hn
                (room_wf_gameStarted true room
                   (Forall_nth_error _ _ _ _ (proj1 Hs) Hn)) eq_refl)
    as (Hheap & Hreg & Ht).
  split; [exact Hheap|]. split; [exact Hreg|].
  unfold timers_wf in *; simpl in *. apply Forall_app; split; auto.
  constructor; [|constructor]. simpl. rewrite upd_nth_length.
  eauto using nth_error_some_lt.
Qed.

Lemma In_values_set x k (v : nat) (m : OMap.t nat) :
  In x (OMap.values (OMap.set k v m)) -> x = v \/ In x (OMap.values m).
Proof.
  unfold OMap.values. induction m as [|[k0 v0] m IH]; simpl.
  - intros [H|[]]; auto.
  - destruct (String.eqb k k0); simpl; intros [H|H]; auto.
    destruct (IH H); auto.
Qed.

Lemma values_set_fresh k (v : nat) (m : OMap.t nat) :
  NoDup (OMap.values m) -> ~ In v (OMap.values m) ->
  NoDup (OMap.values (OMap.set k v m)).
Proof.
  induction m as [|[k' v'] m IH]; simpl; intros Hnd Hv.
  - constructor; [simpl; tauto|constructor].
  - inversion Hnd as [|? ? Hn Hm]; subst.
    destruct (String.eqb k k'); simpl.
    + constructor; [tauto|assumption].
    + constructor; [|apply IH; tauto].
      intros Hi. destruct (In_values_set _ _ _ _ Hi) as [->|Hin]; tauto.
Qed.

Lemma consistent_openRoom s sid rnd pname :
  consistent s -> consistent (openRoom sid rnd pname s).
Proof.
  intros (Hheap & (Hk & Hv & Hreg) & Ht).
  unfold consistent, registry_wf, timers_wf, openRoom; simpl.
  split; [|split; [repeat split|]].
  - apply Forall_app; split; auto. constructor; [|constructor].
    unfold room_wf; simpl. repeat split; constructor; auto; constructor.
  - now apply NoDup_keys_set.
  - apply values_set_fresh; auto. intros Hi.
    apply in_map_iff in Hi as ([c r] & Hr & Hin); simpl in Hr; subst r.
    rewrite Forall_forall in Hreg. destruct (Hreg _ Hin) as (r0 & Hr0 & _).
    apply nth_error_some_lt in Hr0; simpl in Hr0. lia.
  - apply Forall_set.
    + eapply Forall_impl; [|exact Hreg]. intros [c r] (r0 & Hr0 & Hc).
      exists r0; split; auto. simpl in *.
      rewrite nth_error_app1; eauto using nth_error_some_lt.
    + simpl. eexists; split; [apply nth_error_app_length|reflexivity].
  - eapply Forall_impl; [|exact Ht]. intros t Hlt; cbv beta in Hlt.
    rewrite length_app; simpl; lia.
Qed.

Lemma consistent_unregister s code :
  consistent s -> consistent (set_rooms (OMap.delete code (rooms s)) s).
Proof.
  intros (Hheap & (Hk & Hv & Hreg) & Ht).
  unfold consistent, registry_wf, timers_wf; simpl.
  split; [assumption|]. split; [|assumption].
  repeat split.
  - now apply NoDup_keys_delete.
  - now apply NoDup_values_delete.
  - now apply Forall_delete.
Qed.

Lemma consistent_set_timer s tid t t' :
  consistent s -> nth_error (timers s) tid = Some t ->
  Timer.room t' = Timer.room t ->
  consistent (set_timers (upd_nth tid t' (timers s)) s).
Proof.
  intros (Hheap & Hreg & Ht) Hn Hroom.
  split; [exact Hheap|]. split; [exact Hreg|].
  unfold timers_wf in *; simpl. apply Forall_upd_nth; auto.
  rewrite Hroom. apply (Forall_nth_error _ _ _ _ Ht Hn).
Qed.

Lemma with_player_consistent s code pid k :
  consistent s ->
  (forall ref room p,
     nth_error (heap s) ref = Some room -> room_wf room ->
     OMap.get pid (Room.players room) = Some p ->
     consistent (fst (k ref room p))) ->
  consistent (fst (with_player code pid s k)).
Proof.
  intros Hs Hk; unfold with_player.
  destruct (rooms_get s code) as [[ref room]|] eqn:Hr; auto.
  destruct (OMap.get pid (Room.players room)) as [p|] eqn:Hp; auto.
  destruct (consistent_rooms_get _ _ _ _ Hs Hr) as (Hn & Hwf & _).
  now apply Hk.
Qed.

Lemma joinRoom_consistent s sid rnd pname code :
  consistent s -> consistent (fst (joinRoom sid rnd pname code s)).
Proof.
  intros Hs; unfold joinRoom.
  destruct (rooms_get s code) as [[ref room]|] eqn:Hr; auto.
  destruct (2 <=? _)%nat; auto. simpl.
  destruct (consistent_rooms_get _ _ _ _ Hs Hr) as (Hn & Hwf & _).
  eapply consistent_frame with (s := put_room ref _ s); try reflexivity.
  eapply consistent_put_room; eauto using room_wf_add.
Qed.

Lemma handle_consistent s sid rnd m :
  consistent s -> consistent (fst (handle sid rnd m s)).
Proof.
  intros Hs; destruct m; simpl;
    try (apply with_player_consistent; auto; intros ref room p Hn Hwf Hp;
         cbv beta zeta;
         try match goal with
           | |- context [checkGameOver ?c ?l ?r] =>
               let H := fresh "Hcg" in
               assert (H : room_wf r) by (eapply room_wf_put; eauto);
               destruct (checkGameOver_wf c l r H) as [Hwf3 Hc3];
               destruct (checkGameOver c l r) as [room3 over]; cbn [fst snd] in *
           end;
         eapply consistent_put_room; eauto;
         eapply room_wf_put; eauto).
  - now apply consistent_openRoom.
  - unfold on_joinRandomRoom. destruct (findOpenRoom _ _).
    + now apply joinRoom_consistent.
    + now apply consistent_openRoom.
  - now apply joinRoom_consistent.
  - unfold on_joinGame.
    destruct (rooms_get s _) as [[ref room]|] eqn:Hr; auto.
    destruct (consistent_rooms_get _ _ _ _ Hs Hr) as (Hn & Hwf & _).
    destruct (addIfAbsent_wf sid playerId playerName room Hwf) as [Hwf' Hc'].
    assert (H3 : consistent
              (socket_join sid roomCode
                 (set_players
                    (OMap.set sid (Binding.mk playerId roomCode)
                       (players (put_room ref (addIfAbsent sid playerId playerName room) s)))
                    (put_room ref (addIfAbsent sid playerId playerName room) s)))).
    { eapply consistent_frame with (s := put_room ref _ s); try reflexivity.
      eapply consistent_put_room; eauto. }
    destruct (_ && _); simpl; auto.
    apply consistent_startGame; auto. simpl.
    apply nth_error_upd_nth_eq. eauto using nth_error_some_lt.
  - assumption.
  - unfold on_playerHit.
    destruct (rooms_get s _) as [[ref room]|] eqn:Hr; auto.
    destruct (OMap.get targetId _) as [t|] eqn:Ht; auto.
    destruct (OMap.get attackerId _) as [a|] eqn:Ha; auto.
    destruct (Player.isDead t) eqn:Hd; auto.
    destruct (consistent_rooms_get _ _ _ _ Hs Hr) as (Hn & Hwf & _).
    assert (H1 : forall q, Player.id q = Player.id t ->
                           room_wf (put_player ref room targetId q))
      by (intros q Hq; eapply room_wf_put; eauto).
    destruct (_ && _).
    + match goal with
      | |- context [checkGameOver ?c ?l ?r] =>
          assert (Hcg : room_wf r);
          [|destruct (checkGameOver_wf c l r Hcg) as [Hwf3 Hc3];
            destruct (checkGameOver c l r) as [room3 over]; cbn [fst snd] in *]
      end.
      * eapply room_wf_put with (ref := ref)
          (p := Player.set_health (Z.max 0 (Player.health t - 15)) t);
          [apply H1; reflexivity| |reflexivity].
        unfold put_player; simpl; apply get_set_eq.
      * eapply consistent_put_room; eauto.
    + simpl. eapply consistent_put_room; eauto.
  - unfold on_disconnect.
    assert (Hs' : consistent (socket_leaveAll sid s))
      by (eapply consistent_frame; [| | |exact Hs]; reflexivity).
    destruct (OMap.get sid _) as [b|]; auto.
    destruct (rooms_get _ _) as [[ref room]|] eqn:Hr; simpl.
    + destruct (consistent_rooms_get _ _ _ _ Hs' Hr) as (Hn & Hwf & _).
      pose proof (consistent_put_room _ _ _
                    (Room.set_players
                       (OMap.delete (Binding.playerId b) (Room.players room)) room)
                    Hs' Hn (room_wf_delete _ _ Hwf) eq_refl) as H1.
      destruct (_ =? _)%nat.
      * eapply consistent_frame with (s := set_rooms _ (put_room ref _ _));
          try reflexivity.
        apply (consistent_unregister _ (Binding.roomCode b) H1).
      * eapply consistent_frame with (s := put_room ref _ _); try reflexivity.
        exact H1.
    + eapply consistent_frame; [| | |exact Hs']; reflexivity.
Qed.

Lemma tick_consistent tid s : consistent s -> consistent (fst (tick tid s)).
Proof.
  intros Hs; unfold tick.
  destruct (nth_error (timers s) tid) as [t|] eqn:Ht; auto.
  destruct (Timer.cleared t); auto.
  destruct (nth_error (heap s) (Timer.room t)) as [room|] eqn:Hr; auto.
  destruct (Timer.countdown t =? 0); simpl.
  - eapply consistent_set_timer with (s := put_room _ _ s) (t := t); auto.
    eapply consistent_put_room; eauto.
    apply room_wf_place. eapply Forall_nth_error; [exact (proj1 Hs)|exact Hr].
  - eapply consistent_set_timer with (t := t); auto.
Qed.

Lemma init_consistent : consistent init.
Proof.
  repeat split; constructor.
Qed.

Lemma run_consistent ins : forall s, consistent s -> consistent (fst (run ins s)).
Proof.
  induction ins as [|i ins IH]; intros s Hs; simpl; auto.
  destruct (step i s) as [s1 out] eqn:E.
  specialize (IH s1). destruct (run ins s1) as [s2 outs]; simpl in *.
  apply IH. replace s1 with (fst (step i s)) by now rewrite E.
  destruct i; simpl; [now apply handle_consistent|now apply tick_consistent].
Qed.

(** X1. In every state the server can reach, the registry has one entry per
    code, no room object is registered under two codes, every entry leads to
    a room object whose [code] field is its key, every room stores each
    player under the player's own id with one entry per id, keeps
    [countdown] at 3 and holds no timer handle, and every interval closure
    refers to a room object. *)
Theorem reachable_consistent ins : consistent (state_after ins).
Proof.
  apply run_consistent, init_consistent.
Qed.

(** ** The [countdown] field of gameState *)

Lemma checkGameOver_no_gameState code loser room :
  gameState_countdowns (snd (checkGameOver code loser room)) = [].
Proof.
  destruct (checkGameOver_shape code loser room) as [H|(last & _ & H)];
    now rewrite H.
Qed.

Lemma gameState_countdowns_app a b :
  gameState_countdowns (a ++ b) = gameState_countdowns a ++ gameState_countdowns b.
Proof.
  unfold gameState_countdowns. apply flat_map_app.
Qed.

Lemma joinRoom_no_gameState s sid rnd pname code :
  gameState_countdowns (snd (joinRoom sid rnd pname code s)) = [].
Proof.
  unfold joinRoom. destruct (rooms_get s code) as [[ref room]|]; auto.
  destruct (2 <=? _)%nat; auto.
Qed.

Lemma step_gameState_countdown i s :
  consistent s ->
  Forall (fun c => c = 3) (gameState_countdowns (snd (step i s))).
Proof.
  intros Hs. destruct i as [sid rnd m|tid]; simpl.
  - destruct m; simpl; try (constructor; fail).
    + unfold on_joinRandomRoom. destruct (findOpenRoom _ _); simpl.
      * rewrite joinRoom_no_gameState; constructor.
      * constructor.
    + rewrite joinRoom_no_gameState; constructor.
    + unfold on_joinGame.
      destruct (rooms_get s _) as [[ref room]|] eqn:Hr; [|constructor].
      destruct (consistent_rooms_get _ _ _ _ Hs Hr) as (Hn & Hwf & _).
      destruct (addIfAbsent_wf sid playerId playerName room Hwf) as [(Hc & _) _].
      destruct (_ && _); simpl; repeat constructor; exact Hc.
    + unfold on_playerState, with_player.
      destruct (rooms_get s _) as [[ref room]|] eqn:Hr; [|constructor].
      destruct (OMap.get _ _); [|constructor].
      destruct (consistent_rooms_get _ _ _ _ Hs Hr) as (Hn & (Hc & _) & _).
      simpl; repeat constructor; exact Hc.
    + unfold on_swordSwing, with_player.
      destruct (rooms_get s _) as [[ref room]|]; [|constructor].
      destruct (OMap.get _ _); constructor.
    + unfold on_swordRelease, with_player.
      destruct (rooms_get s _) as [[ref room]|]; [|constructor].
      destruct (OMap.get _ _); constructor.
    + unfold on_playerHit.
      destruct (rooms_get s _) as [[ref room]|]; [|constructor].
      do 2 (destruct (OMap.get _ _); try constructor).
      destruct (Player.isDead _); [constructor|].
      destruct (_ && _); [|constructor].
      match goal with
      | |- context [checkGameOver ?c ?l ?r] =>
          pose proof (checkGameOver_no_gameState c l r) as Hg;
          destruct (checkGameOver c l r) as [room3 over]
      end.
      simpl in *. rewrite gameState_countdowns_app, Hg. constructor.
    + unfold on_playerDied, with_player.
      destruct (rooms_get s _) as [[ref room]|]; [|constructor].
      destruct (OMap.get _ _); [|constructor].
      match goal with
      | |- context [checkGameOver ?c ?l ?r] =>
          pose proof (checkGameOver_no_gameState c l r) as Hg;
          destruct (checkGameOver c l r) as [room3 over]
      end.
      simpl in *. rewrite Hg. constructor.
    + unfold on_playerRespawn, with_player.
      destruct (rooms_get s _) as [[ref room]|]; [|constructor].
      destruct (OMap.get _ _); constructor.
    + unfold on_disconnect.
      destruct (OMap.get _ _); [|constructor].
      destruct (rooms_get _ _) as [[ref room]|]; constructor.
  - unfold tick.
    destruct (nth_error (timers s) tid) as [t|]; [|constructor].
    destruct (Timer.cleared t); [|constructor].
    destruct (nth_error (heap s) (Timer.room t)) as [room|] eqn:Hr; [|constructor].
    destruct (_ =? _); simpl; [|constructor].
    repeat constructor.
    apply (Forall_nth_error _ _ _ _ (proj1 Hs) Hr).
Qed.

Lemma run_gameState_countdown ins : forall s,
  consistent s ->
  Forall (fun c => c = 3) (gameState_countdowns (List.concat (snd (run ins s)))).
Proof.
  induction ins as [|i ins IH]; intros s Hs; simpl; [constructor|].
  pose proof (step_gameState_countdown i s Hs) as H1.
  assert (H2 : consistent (fst (step i s)))
    by (destruct i; simpl; [now apply handle_consistent|now apply tick_consistent]).
  destruct (step i s) as [s1 out]; simpl in *.
  specialize (IH s1 H2). destruct (run ins s1) as [s2 outs]; simpl in *.
  rewrite gameState_countdowns_app. apply Forall_app; auto.
Qed.

(** X2. Every gameState event the server ever emits carries countdown 3:
    the [countdown] field of a room is never written, the running countdown
    lives only in the interval closure and reaches clients through countdown
    events. *)
Theorem gameState_countdown_is_always_3 ins :
  Forall (fun c => c = 3)
    (gameState_countdowns (List.concat (snd (run ins init)))).
Proof.
  apply run_gameState_countdown, init_consistent.
Qed.

(** ** Rooms are independent *)

Lemma get_value_injective (m : OMap.t nat) k k' v :
  NoDup (OMap.values m) ->
  OMap.get k m = Some v -> OMap.get k' m = Some v -> k = k'.
Proof.
  induction m as [|[k0 v0] m IH]; simpl; try discriminate.
  intros Hnd. inversion Hnd as [|? ? Hn Hm]; subst.
  destruct (String.eqb_spec k k0), (String.eqb_spec k' k0); intros H1 H2;
    try congruence.
  - inversion H1; subst v0. exfalso; apply Hn.
    apply get_In in H2. apply in_map_iff. exists (k', v); auto.
  - inversion H2; subst v0. exfalso; apply Hn.
    apply get_In in H1. apply in_map_iff. exists (k, v); auto.
  - now apply IH.
Qed.

Lemma room_of_frame s s' code :
  heap s' = heap s -> rooms s' = rooms s -> room_of s' code = room_of s code.
Proof.
  intros Hh Hr; unfold room_of. now rewrite (rooms_get_frame _ _ _ Hr Hh).
Qed.

Lemma room_of_put_other s ref room' code code' :
  NoDup (OMap.values (rooms s)) ->
  OMap.get code (rooms s) = Some ref -> code' <> code ->
  room_of (put_room ref room' s) code' = room_of s code'.
Proof.
  intros Hnd Hg Hne. unfold room_of, rooms_get; simpl.
  destruct (OMap.get code' (rooms s)) as [ref'|] eqn:Hg'; auto.
  rewrite nth_error_upd_nth_neq; auto.
  intros ->. apply Hne. eapply get_value_injective; eauto.
Qed.

Lemma with_player_isolated s code pid k code' :
  (forall ref room p,
     rooms_get s code = Some (ref, room) ->
     room_of (fst (k ref room p)) code' = room_of s code') ->
  room_of (fst (with_player code pid s k)) code' = room_of s code'.
Proof.
  intros Hk; unfold with_player.
  destruct (rooms_get s code) as [[ref room]|] eqn:Hr; auto.
  destruct (OMap.get pid (Room.players room)); auto.
Qed.

(** X3. A message that names room [code] leaves every room registered
    under another code exactly as it was. *)
Theorem other_rooms_untouched s sid rnd m code code' :
  consistent s -> msg_room m = Some code -> code' <> code ->
  room_of (fst (handle sid rnd m s)) code' = room_of s code'.
Proof.
  intros (_ & (_ & Hnd & _) & _) Hm Hne.
  assert (Hput : forall ref room room',
            rooms_get s code = Some (ref, room) ->
            room_of (put_room ref room' s) code' = room_of s code').
  { intros ref room room' Hr. destruct (rooms_get_inv _ _ _ _ Hr) as [Hg _].
    eapply room_of_put_other; eauto. }
  destruct m; simpl in Hm; inversion Hm; subst; simpl;
    try (apply with_player_isolated; intros ref room p Hr; cbv beta zeta;
         try destruct (checkGameOver _ _ _); simpl; eapply Hput; eauto).
  - unfold joinRoom. destruct (rooms_get s code) as [[ref room]|] eqn:Hr; auto.
    destruct (2 <=? _)%nat; auto. simpl.
    erewrite room_of_frame with (s := put_room ref _ s); try reflexivity.
    eapply Hput; eauto.
  - unfold on_joinGame. destruct (rooms_get s code) as [[ref room]|] eqn:Hr; auto.
    destruct (rooms_get_inv _ _ _ _ Hr) as [Hg _].
    destruct (_ && _); simpl.
    + unfold startGame.
      erewrite room_of_frame with (s := put_room ref _ (put_room ref _ s));
        try reflexivity.
      rewrite (room_of_put_other _ _ _ code); auto.
      eapply Hput; eauto.
    + erewrite room_of_frame with (s := put_room ref _ s); try reflexivity.
      eapply Hput; eauto.
  - reflexivity.
  - unfold on_playerHit. destruct (rooms_get s code) as [[ref room]|] eqn:Hr; auto.
    do 2 (destruct (OMap.get _ _); auto).
    destruct (Player.isDead _); auto.
    destruct (_ && _); [destruct (checkGameOver _ _ _)|]; simpl; eapply Hput; eauto.
Qed.

Lemma lobby_consistent : consistent st_lobby.
Proof.
  apply run_consistent, init_consistent.
Qed.

Lemma other_rooms_untouched_witness :
  room_of
    (fst (handle "s9" rnd3 (PlayerDied "K0K0" "p3")
            (fst (handle "s9" rnd3 (CreateRoom "Carol") st_lobby)))) "AB12"
  = room_of (fst (handle "s9" rnd3 (CreateRoom "Carol") st_lobby)) "AB12".
Proof.
  apply (other_rooms_untouched
           (fst (handle "s9" rnd3 (CreateRoom "Carol") st_lobby))
           "s9" rnd3 (PlayerDied "K0K0" "p3") "K0K0" "AB12").
  - apply handle_consistent, lobby_consistent.
  - reflexivity.
  - discriminate.
Defined.

(** ** Matchmaking (joinRandomRoom) *)

Lemma findOpenRoom_found hp rs code :
  NoDup (OMap.keys rs) ->
  findOpenRoom hp rs = Some code ->
  exists ref room before after,
    rs = before ++ (code, ref) :: after /\
    OMap.get code rs = Some ref /\
    nth_error hp ref = Some room /\
    is_open room = true /\
    (forall c r rm, In (c, r) before -> nth_error hp r = Some rm -> is_open rm = false).
Proof.
  induction rs as [|[c r] rs IH]; simpl; try discriminate.
  intros Hnd Hf. inversion Hnd as [|? ? Hn Hm]; subst.
  assert (Hrec : findOpenRoom hp rs = Some code ->
            (forall rm, nth_error hp r = Some rm -> is_open rm = false) ->
            exists ref room before after,
              (c, r) :: rs = before ++ (code, ref) :: after /\
              (if String.eqb code c then Some r else OMap.get code rs) = Some ref /\
              nth_error hp ref = Some room /\ is_open room = true /\
              (forall c0 r0 rm, In (c0, r0) before -> nth_error hp r0 = Some rm ->
                                is_open rm = false)).
  { intros Hf' Hclosed.
    destruct (IH Hm Hf') as (ref & room & before & after & E & Hg & Hr & Ho & Hb).
    exists ref, room, ((c, r) :: before), after.
    split; [simpl; now rewrite E|].
    split.
    - destruct (String.eqb_spec code c); auto.
      subst c. exfalso; apply Hn. eapply get_some_keys; eauto.
    - repeat split; auto.
      intros c0 r0 rm [Hin|Hin] Hrm; [|eauto].
      inversion Hin; subst. now apply Hclosed. }
  destruct (nth_error hp r) as [room|] eqn:Hr.
  - fold (is_open room) in Hf. destruct (is_open room) eqn:Ho.
    + inversion Hf; subst c. exists r, room, [], rs.
      rewrite String.eqb_refl. repeat split; auto. intros ? ? ? [].
    + apply Hrec; auto. intros rm Hrm; congruence.
  - apply Hrec; auto. discriminate.
Qed.

Lemma findOpenRoom_none hp rs :
  findOpenRoom hp rs = None ->
  forall c r rm, In (c, r) rs -> nth_error hp r = Some rm -> is_open rm = false.
Proof.
  induction rs as [|[c0 r0] rs IH]; simpl; [intros _ ? ? ? []|].
  intros Hf c r rm [Hin|Hin] Hrm.
  - inversion Hin; subst. rewrite Hrm in Hf. fold (is_open rm) in Hf.
    destruct (is_open rm); [discriminate|reflexivity].
  - destruct (nth_error hp r0) as [room0|].
    + fold (is_open room0) in Hf. destruct (is_open room0); [discriminate|].
      eapply IH; eauto.
    + eapply IH; eauto.
Qed.

(** X4. The matchmaking scan returns the first room in registry order that
    has exactly one player and is not started: the room is registered under
    the returned code, it is open, and no entry before it is; when the scan
    returns nothing, no registered room is open. *)
Theorem findOpenRoom_first_open s :
  consistent s ->
  (forall code,
     findOpenRoom (heap s) (rooms s) = Some code ->
     exists ref room before after,
       rooms s = before ++ (code, ref) :: after /\
       rooms_get s code = Some (ref, room) /\
       is_open room = true /\
       (forall c r rm, In (c, r) before -> nth_error (heap s) r = Some rm ->
                       is_open rm = false)) /\
  (findOpenRoom (heap s) (rooms s) = None ->
   forall code room, room_of s code = Some room -> is_open room = false).
Proof.
  intros (_ & (Hk & _ & _) & _). split.
  - intros code Hf.
    destruct (findOpenRoom_found _ _ _ Hk Hf)
      as (ref & room & before & after & E & Hg & Hr & Ho & Hb).
    exists ref, room, before, after. repeat split; auto.
    now apply rooms_get_intro.
  - intros Hf code room. unfold room_of.
    destruct (rooms_get s code) as [[ref r]|] eqn:Hr; [|discriminate].
    intros H; inversion H; subst r.
    destruct (rooms_get_inv _ _ _ _ Hr) as [Hg Hn].
    eapply findOpenRoom_none; eauto using get_In.
Qed.

Lemma findOpenRoom_first_open_witness :
  exists ref room before after,
    rooms (state_after [Recv "s1" rnd1 (CreateRoom "Alice")])
      = before ++ ("AB12", ref) :: after /\
    rooms_get (state_after [Recv "s1" rnd1 (CreateRoom "Alice")]) "AB12"
      = Some (ref, room) /\
    is_open room = true.
Proof.
  destruct (findOpenRoom_first_open (state_after [Recv "s1" rnd1 (CreateRoom "Alice")])
              (run_consistent _ _ init_consistent)) as [H _].
  destruct (H "AB12" eq_refl) as (ref & room & before & after & E & Hr & Ho & _).
  exists ref, room, before, after. auto.
Defined.

(** X5. In a consistent state joinRandomRoom never answers roomNotFound or
    roomFull: it always answers roomJoined with the generated player id,
    for the first open room if there is one and for a newly created room
    under the generated code otherwise, and afterwards the player is in that
    room as created and the socket is bound to it. *)
Theorem joinRandomRoom_always_joins s sid rnd pname :
  consistent s ->
  let pid := generatePlayerId rnd in
  let code := match findOpenRoom (heap s) (rooms s) with
              | Some c => c
              | None => generateRoomCode rnd
              end in
  let s' := fst (handle sid rnd (JoinRandomRoom pname) s) in
  snd (handle sid rnd (JoinRandomRoom pname) s) = [(ToSocket sid, EvRoomJoined code pid)] /\
  player_of s' code pid = Some (Player.fresh pid pname sid) /\
  OMap.get sid (players s') = Some (Binding.mk pid code) /\
  In sid (recipients s' (ToRoom code)).
Proof.
  intros Hs pid code s'. subst pid code s'. simpl. unfold on_joinRandomRoom.
  assert (Hjoined : forall st c, In sid (recipients (socket_join sid c st) (ToRoom c))).
  { intros st c. simpl. apply in_map_iff. exists (sid, c). split; auto.
    apply filter_In. simpl. rewrite String.eqb_refl. split; auto.
    destruct (existsb _ _) eqn:E.
    - apply existsb_exists in E as ([a b] & Hin & Heq).
      unfold pair_eqb in Heq; simpl in Heq. apply andb_true_iff in Heq as [H1 H2].
      apply String.eqb_eq in H1, H2. now subst.
    - apply in_or_app; right; left; reflexivity. }
  destruct (findOpenRoom (heap s) (rooms s)) as [c|] eqn:Hf.
  - destruct (findOpenRoom_found _ _ _ (proj1 (proj1 (proj2 Hs))) Hf)
      as (ref & room & _ & _ & _ & Hg & Hn & Ho & _).
    pose proof (rooms_get_intro _ _ _ _ Hg Hn) as Hr.
    unfold joinRoom. rewrite Hr.
    unfold is_open in Ho. apply andb_true_iff in Ho as [Hsz _].
    apply Nat.eqb_eq in Hsz. rewrite Hsz. simpl.
    split; [reflexivity|]. split; [|split; [apply get_set_eq|apply Hjoined]].
    unfold player_of, room_of.
    erewrite rooms_get_frame; [erewrite rooms_get_put_room by exact Hr| |];
      try reflexivity.
    simpl. apply get_set_eq.
  - simpl. split; [reflexivity|].
    split; [|split; [apply get_set_eq|apply Hjoined]].
    unfold player_of, room_of, rooms_get, openRoom; simpl.
    rewrite get_set_eq, nth_error_app_length. simpl.
    now rewrite String.eqb_refl.
Qed.

Lemma joinRandomRoom_always_joins_witness :
  snd (handle "s2" rnd2 (JoinRandomRoom "Bob")
         (state_after [Recv "s1" rnd1 (CreateRoom "Alice")]))
    = [(ToSocket "s2", EvRoomJoined "AB12" "p2")] /\
  snd (handle "s3" rnd3 (JoinRandomRoom "Carol") st_lobby)
    = [(ToSocket "s3", EvRoomJoined "K0K0" "p3")].
Proof.
  split.
  - apply (joinRandomRoom_always_joins
             (state_after [Recv "s1" rnd1 (CreateRoom "Alice")]) "s2" rnd2 "Bob"
             (run_consistent _ _ init_consistent)).
  - apply (joinRandomRoom_always_joins st_lobby "s3" rnd3 "Carol" lobby_consistent).
Defined.

(** ** Room creation (createRoom) *)

(** X6. createRoom answers roomCreated to the sender with the generated
    code and player id; afterwards that code leads to a new room holding
    only the creator (at (0,0), health 100, alive), not started, whether or
    not the code was registered before (a colliding room is displaced); the
    socket is bound to it and joined to its group; every room registered
    under another code stays as it was. *)
Theorem createRoom_registers s sid rnd pname :
  let code := generateRoomCode rnd in
  let pid := generatePlayerId rnd in
  let s' := fst (handle sid rnd (CreateRoom pname) s) in
  snd (handle sid rnd (CreateRoom pname) s) = [(ToSocket sid, EvRoomCreated code pid)] /\
  rooms_get s' code =
    Some (List.length (heap s),
          Room.mk code [(pid, Player.mk pid pname sid 0 0 None None 100 false None None None)]
            false 3 None) /\
  OMap.get sid (players s') = Some (Binding.mk pid code) /\
  timers s' = timers s /\
  (forall code' ref room,
     code' <> code -> rooms_get s code' = Some (ref, room) ->
     rooms_get s' code' = Some (ref, room)) /\
  (forall code',
     code' <> code -> OMap.get code' (rooms s) = None ->
     OMap.get code' (rooms s') = None).
Proof.
  simpl. unfold openRoom; simpl. repeat split.
  - unfold rooms_get; simpl. now rewrite get_set_eq, nth_error_app_length.
  - apply get_set_eq.
  - intros code' ref room Hne Hr. destruct (rooms_get_inv _ _ _ _ Hr) as [Hg Hn].
    apply rooms_get_intro; simpl.
    + rewrite get_set_neq; auto.
    + rewrite nth_error_app1; eauto using nth_error_some_lt.
  - intros code' Hne Hg. simpl. rewrite get_set_neq; auto.
Qed.

Lemma createRoom_registers_witness :
  rooms_get (fst (handle "s9" rnd3 (CreateRoom "Carol") st_lobby)) "AB12"
    = rooms_get st_lobby "AB12" /\
  OMap.get "ZZ99" (rooms (fst (handle "s9" rnd3 (CreateRoom "Carol") st_lobby))) = None.
Proof.
  destruct (createRoom_registers st_lobby "s9" rnd3 "Carol")
    as (_ & _ & _ & _ & Hkeep & Hnone).
  split.
  - apply (Hkeep "AB12" 0%nat); [discriminate|reflexivity].
  - apply Hnone; [discriminate|reflexivity].
Defined.

(** ** The survivor check *)

Lemma last_cons {A} (l : list A) : forall a d, List.last (a :: l) d = List.last l a.
Proof.
  induction l as [|b l IH]; intros a d; [reflexivity|].
  change (List.last (a :: b :: l) d) with (List.last (b :: l) d).
  now rewrite !IH.
Qed.

Lemma countAlive_fold ps : forall n l,
  fold_left
    (fun acc p => if Player.isDead p then acc else (S (fst acc), Some p))
    ps (n, l)
  = ((n + List.length (alive ps))%nat, List.last (map Some (alive ps)) l).
Proof.
  induction ps as [|p ps IH]; intros n l; simpl.
  - now rewrite Nat.add_0_r.
  - destruct (Player.isDead p); simpl.
    + apply IH.
    + rewrite IH. f_equal; [lia|].
      fold (alive ps). symmetry. apply last_cons.
Qed.

Lemma checkGameOver_alive code loser room :
  (forall w,
     alive (OMap.values (Room.players room)) = [w] ->
     checkGameOver code loser room =
       (Room.set_gameStarted false room,
        [(ToRoom code, EvGameOver (Player.id w) loser)])) /\
  (List.length (alive (OMap.values (Room.players room))) <> 1%nat ->
   checkGameOver code loser room = (room, [])).
Proof.
  unfold checkGameOver, countAlive. rewrite countAlive_fold. simpl.
  split.
  - intros w Hw. now rewrite Hw.
  - intros Hn.
    destruct (alive (OMap.values (Room.players room))) as [|a [|b l]]; simpl in *;
      try reflexivity.
    congruence.
Qed.



(** ** Self-reported death (playerDied) *)

(** X8. playerDied on a player present in the room raises the death flag
    and changes nothing else of that player (health included) nor any other
    player; it emits gameOver, with the reporting player as loser, exactly
    when one player of the room is then alive, and only then resets
    [gameStarted]. *)
Theorem playerDied_effect s sid rnd code pid ref room p :
  rooms_get s code = Some (ref, room) ->
  OMap.get pid (Room.players room) = Some p ->
  let ps1 := OMap.set pid (Player.set_isDead true p) (Room.players room) in
  let s' := fst (handle sid rnd (PlayerDied code pid) s) in
  let out := snd (handle sid rnd (PlayerDied code pid) s) in
  exists room',
    rooms_get s' code = Some (ref, room') /\
    Room.players room' = ps1 /\
    OMap.get pid (Room.players room') = Some (Player.set_isDead true p) /\
    (forall pid', pid' <> pid ->
       OMap.get pid' (Room.players room') = OMap.get pid' (Room.players room)) /\
    (forall w, alive (OMap.values ps1) = [w] ->
       out = [(ToRoom code, EvGameOver (Player.id w) pid)] /\
       Room.gameStarted room' = false) /\
    (List.length (alive (OMap.values ps1)) <> 1%nat ->
       out = [] /\ Room.gameStarted room' = Room.gameStarted room).
Proof.
  intros Hr Hp; simpl. unfold on_playerDied, with_player. rewrite Hr, Hp.
  set (room1 := put_player ref room pid (Player.set_isDead true p)).
  destruct (checkGameOver_alive code pid room1) as [Hone Hnot].
  pose proof (checkGameOver_players code pid room1) as Hps.
  destruct (checkGameOver code pid room1) as [room2 over] eqn:E. simpl in *.
  exists room2. split; [now apply (rooms_get_put_room _ _ _ _ room2 Hr)|].
  split; [exact Hps|]. rewrite Hps.
  split; [apply get_set_eq|].
  split; [intros pid' Hne; apply get_set_neq; congruence|].
  split.
  - intros w Hw. specialize (Hone w Hw). inversion Hone; subst. auto.
  - intros Hn. specialize (Hnot Hn). inversion Hnot; subst. auto.
Qed.

Lemma playerDied_effect_witness :
  snd (handle "s1" rnd1 (PlayerDied "AB12" "p1") st_lobby)
    = [(ToRoom "AB12", EvGameOver "p2" "p1")] /\
  snd (handle "s2" rnd2 (PlayerDied "AB12" "p2")
         (fst (handle "s1" rnd1 (PlayerDied "AB12" "p1") st_lobby))) = [].
Proof.
  split.
  - destruct (playerDied_effect st_lobby "s1" rnd1 "AB12" "p1" 0%nat _ _ eq_refl eq_refl)
      as (room' & _ & _ & _ & _ & H & _).
    apply (H (Player.fresh "p2" "Bob" "s2")). reflexivity.
  - destruct (playerDied_effect
                (fst (handle "s1" rnd1 (PlayerDied "AB12" "p1") st_lobby))
                "s2" rnd2 "AB12" "p2" 0%nat _ _ eq_refl eq_refl)
      as (room' & _ & _ & _ & _ & _ & H).
    apply H. simpl. discriminate.
Defined.

(** ** Disconnect *)

Lemma size_zero_nil {V} (m : OMap.t V) : (OMap.size m =? 0)%nat = true <-> m = [].
Proof.
  destruct m; simpl; split; intros; try discriminate; auto.
Qed.

(** X9. Disconnect of a socket without binding emits nothing and leaves
    rooms, bindings and intervals alone.  Disconnect of a bound socket
    removes the binding and the bound player from the bound room; the room
    is unregistered exactly when no player is left, and otherwise stays
    registered with the remaining players unchanged; intervals are never
    cancelled; when the binding names a room that is no longer registered
    only the binding is removed.  In a consistent state a player who was in
    the room lowers its size by one, and rooms under other codes are
    untouched. *)
Theorem disconnect_cleanup s sid rnd :
  let s' := fst (handle sid rnd Disconnect s) in
  let out := snd (handle sid rnd Disconnect s) in
  (OMap.get sid (players s) = None ->
   out = [] /\ heap s' = heap s /\ rooms s' = rooms s /\
   players s' = players s /\ timers s' = timers s) /\
  (forall b,
     OMap.get sid (players s) = Some b ->
     rooms_get s (Binding.roomCode b) = None ->
     out = [] /\ heap s' = heap s /\ rooms s' = rooms s /\
     OMap.get sid (players s') = None /\ timers s' = timers s) /\
  (forall b ref room,
     OMap.get sid (players s) = Some b ->
     rooms_get s (Binding.roomCode b) = Some (ref, room) ->
     let pid := Binding.playerId b in
     let code := Binding.roomCode b in
     let rest := OMap.delete pid (Room.players room) in
     OMap.get sid (players s') = None /\
     timers s' = timers s /\
     player_of s' code pid = None /\
     (rest = [] -> OMap.get code (rooms s') = None) /\
     (rest <> [] -> rooms_get s' code = Some (ref, Room.set_players rest room)) /\
     (forall pid', pid' <> pid ->
        OMap.get pid' rest = OMap.get pid' (Room.players room)) /\
     (consistent s ->
        (forall p, OMap.get pid (Room.players room) = Some p ->
                   S (OMap.size rest) = OMap.size (Room.players room)) /\
        (forall code', code' <> code -> room_of s' code' = room_of s code'))).
Proof.
  simpl. unfold on_disconnect.
  change (players (socket_leaveAll sid s)) with (players s).
  split; [|split].
  - intros Hb; rewrite Hb; simpl. auto.
  - intros b Hb Hr; rewrite Hb.
    change (rooms_get (socket_leaveAll sid s) (Binding.roomCode b))
      with (rooms_get s (Binding.roomCode b)).
    rewrite Hr; simpl. repeat split; auto. apply get_delete_eq.
  - intros b ref room Hb Hr; rewrite Hb.
    change (rooms_get (socket_leaveAll sid s) (Binding.roomCode b))
      with (rooms_get s (Binding.roomCode b)).
    rewrite Hr. cbv zeta.
    destruct (rooms_get_inv _ _ _ _ Hr) as [Hg Hn].
    set (rest := OMap.delete (Binding.playerId b) (Room.players room)).
    change (Room.players (Room.set_players rest room)) with rest.
    destruct (OMap.size rest =? 0)%nat eqn:Hz; cbn [fst snd].
    + apply size_zero_nil in Hz.
      split; [apply get_delete_eq|]. split; [reflexivity|].
      split; [unfold player_of, room_of, rooms_get; simpl; now rewrite get_delete_eq|].
      split; [intros _; simpl; apply get_delete_eq|].
      split; [intros Hne; congruence|].
      split; [intros pid' Hne; apply get_delete_neq; congruence|].
      intros (Hheap & (Hk & Hv & Hreg) & Ht). split.
      * intros p Hp. apply (size_delete_present _ p); auto.
        apply (Forall_nth_error _ _ _ _ Hheap Hn).
      * intros code' Hne. unfold room_of, rooms_get; simpl.
        rewrite get_delete_neq by congruence.
        destruct (OMap.get code' (rooms s)) as [ref'|] eqn:Hg'; auto.
        rewrite nth_error_upd_nth_neq; auto.
        intros ->. apply Hne. eapply get_value_injective; eauto.
    + assert (Hne0 : rest <> []) by (intros E; rewrite E in Hz; discriminate).
      assert (Hget : forall st,
                rooms st = rooms s ->
                heap st = upd_nth ref (Room.set_players rest room) (heap s) ->
                rooms_get st (Binding.roomCode b) = Some (ref, Room.set_players rest room)).
      { intros st Hrs Hhs. apply rooms_get_intro; rewrite ?Hrs, ?Hhs; auto.
        apply nth_error_upd_nth_eq. eauto using nth_error_some_lt. }
      split; [apply get_delete_eq|]. split; [reflexivity|].
      split; [unfold player_of, room_of; rewrite Hget by reflexivity; simpl;
              apply get_delete_eq|].
      split; [intros E; congruence|].
      split; [intros _; apply Hget; reflexivity|].
      split; [intros pid' Hne; apply get_delete_neq; congruence|].
      intros (Hheap & (Hk & Hv & Hreg) & Ht). split.
      * intros p Hp. apply (size_delete_present _ p); auto.
        apply (Forall_nth_error _ _ _ _ Hheap Hn).
      * intros code' Hne. unfold room_of, rooms_get; simpl.
        destruct (OMap.get code' (rooms s)) as [ref'|] eqn:Hg'; auto.
        rewrite nth_error_upd_nth_neq; auto.
        intros ->. apply Hne. eapply get_value_injective; eauto.
Qed.

Lemma disconnect_cleanup_witness :
  snd (handle "s7" rnd3 Disconnect st_lobby) = [] /\
  rooms_get (fst (handle "s1" rnd1 Disconnect st_lobby)) "AB12"
    = Some (0%nat, Room.mk "AB12" [("p2", Player.fresh "p2" "Bob" "s2")] false 3 None) /\
  OMap.get "AB12"
    (rooms (fst (handle "s2" rnd2 Disconnect (fst (handle "s1" rnd1 Disconnect st_lobby)))))
    = None.
Proof.
  destruct (disconnect_cleanup st_lobby "s7" rnd3) as (H1 & _ & _).
  destruct (disconnect_cleanup st_lobby "s1" rnd1) as (_ & _ & H2).
  destruct (disconnect_cleanup (fst (handle "s1" rnd1 Disconnect st_lobby)) "s2" rnd2)
    as (_ & _ & H3).
  split; [apply H1; reflexivity|]. split.
  - destruct (H2 _ 0%nat _ eq_refl eq_refl) as (_ & _ & _ & _ & H & _).
    apply H. discriminate.
  - destruct (H3 _ 0%nat _ eq_refl eq_refl) as (_ & _ & _ & H & _).
    apply H. reflexivity.
Defined.

(** ** Intervals and messages *)

Lemma upd_nth_twice {A} (n : nat) (a b : A) (l : list A) :
  upd_nth n a (upd_nth n b l) = upd_nth n a l.
Proof.
  revert n; induction l as [|c l IH]; intros [|n]; simpl; auto.
  now rewrite IH.
Qed.

(** How a handler changes the heap: not at all, or by rewriting one room
    object that keeps its code, or by allocating one room object. *)
Lemma handle_heap_shape s sid rnd m :
  let s' := fst (handle sid rnd m s) in
  heap s' = heap s \/
  (exists ref room room',
     nth_error (heap s) ref = Some room /\
     heap s' = upd_nth ref room' (heap s) /\
     Room.code room' = Room.code room) \/
  (exists room, heap s' = heap s ++ [room]).
Proof.
  assert (Hwp : forall code pid k,
            (forall ref room p,
               nth_error (heap s) ref = Some room ->
               exists room', heap (fst (k ref room p)) = upd_nth ref room' (heap s) /\
                             Room.code room' = Room.code room) ->
            heap (fst (with_player code pid s k)) = heap s \/
            (exists ref room room',
               nth_error (heap s) ref = Some room /\
               heap (fst (with_player code pid s k)) = upd_nth ref room' (heap s) /\
               Room.code room' = Room.code room) \/
            (exists room, heap (fst (with_player code pid s k)) = heap s ++ [room])).
  { intros code pid k Hk. unfold with_player.
    destruct (rooms_get s code) as [[ref room]|] eqn:Hr; auto.
    destruct (OMap.get pid (Room.players room)) as [p|]; auto.
    right; left. pose proof (rooms_get_heap _ _ _ _ Hr) as Hn.
    destruct (Hk ref room p Hn) as (room' & H1 & H2). eauto 6. }
  assert (Hjr : forall pname code,
            heap (fst (joinRoom sid rnd pname code s)) = heap s \/
            (exists ref room room',
               nth_error (heap s) ref = Some room /\
               heap (fst (joinRoom sid rnd pname code s)) = upd_nth ref room' (heap s) /\
               Room.code room' = Room.code room) \/
            (exists room, heap (fst (joinRoom sid rnd pname code s)) = heap s ++ [room])).
  { intros pname code. unfold joinRoom.
    destruct (rooms_get s code) as [[ref room]|] eqn:Hr; auto.
    destruct (2 <=? _)%nat; auto.
    right; left. exists ref, room. eexists. split; [eapply rooms_get_heap; eauto|].
    split; reflexivity. }
  destruct m; simpl;
    try (apply Hwp; intros ref room p Hn; cbv beta zeta;
         try match goal with
           | |- context [checkGameOver ?c ?l ?r] =>
               destruct (checkGameOver_shape c l r) as [Hcg|(last & _ & Hcg)];
               rewrite Hcg
           end;
         eexists; split; reflexivity).
  - right; right. eexists; reflexivity.
  - unfold on_joinRandomRoom. destruct (findOpenRoom _ _); [apply Hjr|].
    right; right. eexists; reflexivity.
  - apply Hjr.
  - unfold on_joinGame. destruct (rooms_get s _) as [[ref room]|] eqn:Hr; auto.
    right; left. exists ref, room.
    pose proof (rooms_get_heap _ _ _ _ Hr) as Hn.
    assert (Hc : Room.code (addIfAbsent sid playerId playerName room) = Room.code room)
      by (unfold addIfAbsent; destruct (OMap.has _ _); reflexivity).
    destruct (_ && _); simpl.
    + rewrite upd_nth_twice. eexists. split; [exact Hn|]. split; [reflexivity|exact Hc].
    + eexists. split; [exact Hn|]. split; [reflexivity|exact Hc].
  - auto.
  - unfold on_playerHit. destruct (rooms_get s _) as [[ref room]|] eqn:Hr; auto.
    do 2 (destruct (OMap.get _ _); auto).
    destruct (Player.isDead _); auto.
    right; left. exists ref, room.
    pose proof (rooms_get_heap _ _ _ _ Hr) as Hn.
    destruct (_ && _).
    + match goal with
      | |- context [checkGameOver ?c ?l ?r] =>
          destruct (checkGameOver_shape c l r) as [Hcg|(last & _ & Hcg)];
          rewrite Hcg
      end; eexists; (split; [exact Hn|split; reflexivity]).
    + eexists; (split; [exact Hn|split; reflexivity]).
  - unfold on_disconnect. destruct (OMap.get sid _); auto.
    destruct (rooms_get _ _) as [[ref room]|] eqn:Hr; auto.
    right; left. exists ref, room.
    pose proof (rooms_get_heap _ _ _ _ Hr) as Hn.
    eexists. split; [exact Hn|]. destruct (_ =? _)%nat; split; reflexivity.
Qed.

Lemma handle_keeps_room_object s sid rnd m n room :
  nth_error (heap s) n = Some room ->
  exists room',
    nth_error (heap (fst (handle sid rnd m s))) n = Some room' /\
    Room.code room' = Room.code room.
Proof.
  intros Hn.
  destruct (handle_heap_shape s sid rnd m)
    as [H|[(ref & r & r' & Hr & H & Hc)|(r & H)]]; rewrite H.
  - eauto.
  - destruct (Nat.eq_dec ref n) as [->|Hne].
    + exists r'. split; [apply nth_error_upd_nth_eq; eauto using nth_error_some_lt|].
      congruence.
    + exists room. now rewrite nth_error_upd_nth_neq.
  - exists room. rewrite nth_error_app1; eauto using nth_error_some_lt.
Qed.

(** X10. No message cancels or alters a running interval, and the room
    object its closure captured stays alive under the same code: whatever
    message is handled (a disconnect that unregisters the room included),
    the interval is as before and its next firing still emits its countdown
    value to the group of that code. *)
Theorem interval_outlives_messages s sid rnd m tid t room :
  nth_error (timers s) tid = Some t ->
  nth_error (heap s) (Timer.room t) = Some room ->
  Timer.cleared t = O ->
  let s' := fst (handle sid rnd m s) in
  nth_error (timers s') tid = Some t /\
  exists rest,
    snd (step (Fire tid) s') =
      (ToRoom (Room.code room), EvCountdown (Timer.countdown t)) :: rest.
Proof.
  intros Ht Hr Hc; simpl.
  assert (Ht' : nth_error (timers (fst (handle sid rnd m s))) tid = Some t).
  { destruct (handle_timers s sid rnd m) as [l Hl]. rewrite Hl.
    rewrite nth_error_app1; eauto using nth_error_some_lt. }
  split; [exact Ht'|].
  destruct (handle_keeps_room_object s sid rnd m _ _ Hr) as (room' & Hr' & Hcode).
  unfold tick. rewrite Ht', Hc, Hr', Hcode.
  destruct (_ =? _); simpl; eauto.
Qed.

Lemma interval_outlives_messages_witness :
  exists rest,
    snd (step (Fire 0)
           (fst (handle "s2" rnd2 Disconnect
                   (fst (handle "s1" rnd1 Disconnect
                           (fst (handle "s2" rnd2 (JoinGame "p2" "Bob" "AB12") st_lobby)))))))
    = (ToRoom "AB12", EvCountdown 3) :: rest.
Proof.
  apply (interval_outlives_messages
           (fst (handle "s1" rnd1 Disconnect
                   (fst (handle "s2" rnd2 (JoinGame "p2" "Bob" "AB12") st_lobby))))
           "s2" rnd2 Disconnect 0%nat (Timer.mk 0 3 0) _ eq_refl eq_refl eq_refl).
Defined.

(** ** Spawn placement *)

Lemma place_nth ps : forall i j k p,
  nth_error ps j = Some (k, p) ->
  nth_error (place i ps) j =
    Some (k, Player.set_xy (match (i + j)%nat with O => 250 | S _ => 750 end) 300 p).
Proof.
  induction ps as [|[k0 p0] ps IH]; intros i [|j] k p; simpl; try discriminate.
  - intros H; inversion H; subst. now rewrite Nat.add_0_r.
  - intros H. rewrite (IH (S i) j k p H).
    now replace (S i + j)%nat with (i + S j)%nat by lia.
Qed.

(** X11. On its 0 firing an interval moves every player of its room, however
    many there are: the first in enumeration order to (250,300) and each
    other one to (750,300); nothing else of a player changes, no player is
    added or removed, and [gameStarted] is left as it is. *)
Theorem zero_tick_places_everyone s tid ref room :
  nth_error (timers s) tid = Some (Timer.mk ref 0 0) ->
  nth_error (heap s) ref = Some room ->
  exists room',
    nth_error (heap (fst (step (Fire tid) s))) ref = Some room' /\
    OMap.keys (Room.players room') = OMap.keys (Room.players room) /\
    Room.gameStarted room' = Room.gameStarted room /\
    (forall j k p,
       nth_error (Room.players room) j = Some (k, p) ->
       nth_error (Room.players room') j =
         Some (k, Player.mk (Player.id p) (Player.name p) (Player.socketId p)
                    (match j with O => 250 | S _ => 750 end) 300
                    (Player.velocityX p) (Player.velocityY p) (Player.health p)
                    (Player.isDead p) (Player.shield p) (Player.sword p)
                    (Player.swordHitbox p))).
Proof.
  intros Ht Hr; simpl.
  destruct (tick_zero_next _ _ _ _ Ht Hr) as (s' & Hk & Hh & _ & _).
  rewrite Hk; simpl. eexists; split; [exact Hh|]. simpl.
  split; [apply place_keys|]. split; [reflexivity|].
  intros j k p Hj. now rewrite (place_nth _ 0 j k p Hj).
Qed.

Lemma zero_tick_places_everyone_witness :
  exists room',
    nth_error
      (heap (fst (step (Fire 0)
         (fst (run [Recv "s3" rnd3 (JoinGame "p3" "Carol" "AB12"); Fire 0; Fire 0; Fire 0]
                 (fst (handle "s2" rnd2 (JoinGame "p2" "Bob" "AB12") st_lobby)))))))
      0 = Some room' /\
    nth_error (Room.players room') 2 =
      Some ("p3", Player.set_xy 750 300 (Player.fresh "p3" "Carol" "s3")).
Proof.
  destruct (zero_tick_places_everyone
              (fst (run [Recv "s3" rnd3 (JoinGame "p3" "Carol" "AB12");
                         Fire 0; Fire 0; Fire 0]
                      (fst (handle "s2" rnd2 (JoinGame "p2" "Bob" "AB12") st_lobby))))
              0%nat 0%nat _ eq_refl eq_refl) as (room' & H1 & _ & _ & H2).
  exists room'. split; [exact H1|].
  apply (H2 2%nat "p3" (Player.fresh "p3" "Carol" "s3")). reflexivity.
Defined.

(** ** joinGame is idempotent *)

Lemma has_addIfAbsent sid pid pname room :
  OMap.has pid (Room.players (addIfAbsent sid pid pname room)) = true.
Proof.
  unfold addIfAbsent. destruct (OMap.has pid (Room.players room)) eqn:E; auto.
  simpl. unfold OMap.has. now rewrite get_set_eq.
Qed.

Lemma addIfAbsent_present sid pid pname room :
  OMap.has pid (Room.players room) = true -> addIfAbsent sid pid pname room = room.
Proof.
  intros H; unfold addIfAbsent. now rewrite H.
Qed.

Lemma socket_join_joined sid code l :
  existsb (pair_eqb (sid, code))
    (if existsb (pair_eqb (sid, code)) l then l else l ++ [(sid, code)]) = true.
Proof.
  destruct (existsb _ l) eqn:E; auto.
  rewrite existsb_app; simpl. unfold pair_eqb; simpl.
  rewrite !String.eqb_refl. simpl. now rewrite orb_true_r.
Qed.

Lemma joinGame_known s sid pid pname code ref room :
  rooms_get s code = Some (ref, room) ->
  OMap.has pid (Room.players room) = true ->
  OMap.get sid (players s) = Some (Binding.mk pid code) ->
  existsb (pair_eqb (sid, code)) (joined s) = true ->
  ((OMap.size (Room.players room) =? 2)%nat && negb (Room.gameStarted room)) = false ->
  on_joinGame sid pid pname code s = (s, broadcastGameState room).
Proof.
  intros Hr Hh Hb Hj Hc. unfold on_joinGame. rewrite Hr.
  rewrite (addIfAbsent_present _ _ _ _ Hh), Hc.
  f_equal. unfold socket_join, set_players, put_room; simpl.
  rewrite Hj, (set_same _ _ _ Hb), (upd_nth_same _ _ _ (rooms_get_heap _ _ _ _ Hr)).
  now destruct s.
Qed.

(** X12. joinGame is idempotent on the state: handling the same joinGame
    again from the same socket changes nothing more (the player is not
    added twice, the binding and the group membership are as they were, and
    no second interval is started); the repeat only re-broadcasts the
    gameState. *)
Theorem joinGame_idempotent s sid rnd pid pname code :
  let s1 := fst (handle sid rnd (JoinGame pid pname code) s) in
  fst (handle sid rnd (JoinGame pid pname code) s1) = s1 /\
  timers (fst (handle sid rnd (JoinGame pid pname code) s1)) = timers s1.
Proof.
  simpl. assert (H : fst (on_joinGame sid pid pname code
                           (fst (on_joinGame sid pid pname code s)))
                     = fst (on_joinGame sid pid pname code s));
    [|split; [exact H|now rewrite H]].
  unfold on_joinGame at 2 3.
  destruct (rooms_get s code) as [[ref room]|] eqn:Hr.
  - pose proof (rooms_get_inv _ _ _ _ Hr) as [Hg Hn].
    pose proof (has_addIfAbsent sid pid pname room) as Hh.
    set (room' := addIfAbsent sid pid pname room) in *.
    destruct ((OMap.size (Room.players room') =? 2)%nat && negb (Room.gameStarted room'))
      eqn:Hc; cbn [fst].
    + erewrite joinGame_known with (ref := ref) (room := Room.set_gameStarted true room');
        try reflexivity.
      * apply rooms_get_intro; simpl; auto.
        apply nth_error_upd_nth_eq. rewrite upd_nth_length.
        eauto using nth_error_some_lt.
      * exact Hh.
      * simpl. apply get_set_eq.
      * simpl. apply socket_join_joined.
      * simpl. apply andb_false_r.
    + erewrite joinGame_known with (ref := ref) (room := room'); try reflexivity.
      * apply rooms_get_intro; simpl; auto.
        apply nth_error_upd_nth_eq. eauto using nth_error_some_lt.
      * exact Hh.
      * simpl. apply get_set_eq.
      * simpl. apply socket_join_joined.
      * exact Hc.
  - simpl. unfold on_joinGame. now rewrite Hr.
Qed.

(** ** Snapshots and movement reports *)







(** ** Repeated hits *)




(** ** Room codes *)

(** The position in [chars] of a letter or digit. *)
Lemma chars_get_index i c :
  String.get i chars = Some c ->
  (i < 36)%nat /\
  i = (if (Ascii.nat_of_ascii c <? 65)%nat
       then Ascii.nat_of_ascii c - 48 + 26
       else Ascii.nat_of_ascii c - 65)%nat.
Proof.
  unfold chars.
  do 36 (destruct i as [|i];
         [simpl; intros H; inversion H; subst c; split; [lia|reflexivity]|]).
  simpl. discriminate.
Qed.

Lemma chars_get_some i : (i < 36)%nat -> exists c, String.get i chars = Some c.
Proof.
  unfold chars.
  do 36 (destruct i as [|i]; [simpl; eauto|]). lia.
Qed.

(** X16. A room code built from four draws below 36 is four characters
    long, each of them an upper-case letter or a digit of the alphabet, and
    different draws give different codes (36^4 codes in all). *)
Theorem roomCode_shape d0 d1 d2 d3 :
  (d0 < 36)%nat -> (d1 < 36)%nat -> (d2 < 36)%nat -> (d3 < 36)%nat ->
  String.length (roomCode_of d0 d1 d2 d3) = 4%nat /\
  (forall i c, String.get i (roomCode_of d0 d1 d2 d3) = Some c ->
               exists j, (j < 36)%nat /\ String.get j chars = Some c) /\
  (forall e0 e1 e2 e3,
     (e0 < 36)%nat -> (e1 < 36)%nat -> (e2 < 36)%nat -> (e3 < 36)%nat ->
     roomCode_of e0 e1 e2 e3 = roomCode_of d0 d1 d2 d3 ->
     e0 = d0 /\ e1 = d1 /\ e2 = d2 /\ e3 = d3).
Proof.
  intros H0 H1 H2 H3.
  assert (Hform : forall a b c d,
            (a < 36)%nat -> (b < 36)%nat -> (c < 36)%nat -> (d < 36)%nat ->
            exists ca cb cc cd,
              String.get a chars = Some ca /\ String.get b chars = Some cb /\
              String.get c chars = Some cc /\ String.get d chars = Some cd /\
              roomCode_of a b c d = String ca (String cb (String cc (String cd "")))).
  { intros a b c d Ha Hb Hc Hd.
    destruct (chars_get_some a Ha) as [ca Hca], (chars_get_some b Hb) as [cb Hcb],
             (chars_get_some c Hc) as [cc Hcc], (chars_get_some d Hd) as [cd Hcd].
    exists ca, cb, cc, cd. repeat split; auto.
    unfold roomCode_of; cbn [fold_left]. unfold append_draw.
    now rewrite Hca, Hcb, Hcc, Hcd. }
  destruct (Hform d0 d1 d2 d3 H0 H1 H2 H3)
    as (c0 & c1 & c2 & c3 & G0 & G1 & G2 & G3 & E).
  rewrite E. split; [reflexivity|]. split.
  - intros i c Hi.
    destruct i as [|[|[|[|i]]]]; simpl in Hi; inversion Hi; subst c; eauto.
  - intros e0 e1 e2 e3 K0 K1 K2 K3 Heq.
    destruct (Hform e0 e1 e2 e3 K0 K1 K2 K3)
      as (b0 & b1 & b2 & b3 & F0 & F1 & F2 & F3 & E').
    rewrite E' in Heq. inversion Heq; subst.
    repeat split;
      match goal with
      | Fa : String.get ?x chars = Some ?c, Ga : String.get ?y chars = Some ?c
        |- ?x = ?y =>
          rewrite (proj2 (chars_get_index _ _ Fa)), (proj2 (chars_get_index _ _ Ga));
          reflexivity
      end.
Qed.

Lemma roomCode_shape_witness :
  roomCode_of 0 1 27 28 = "AB12" /\ String.length (roomCode_of 0 1 27 28) = 4%nat.
Proof.
  split; [reflexivity|].
  apply (roomCode_shape 0 1 27 28); lia.
Defined.

(** ** Capacity without joinGame *)

Lemma run_le2 ins : forall s,
  forallb not_joinGame ins = true -> heap_le2 s -> heap_le2 (fst (run ins s)).
Proof.
  induction ins as [|i ins IH]; intros s Hn Hs; simpl; auto.
  simpl in Hn. apply andb_true_iff in Hn as [Hi Hn].
  assert (H1 : heap_le2 (fst (step i s))).
  { destruct i as [sid rnd m|tid]; simpl.
    - apply capacity_kept_except_joinGame; auto.
      intros pid pname code ->. discriminate.
    - now apply capacity_kept_by_tick. }
  destruct (step i s) as [s1 out]; simpl in *.
  specialize (IH s1 Hn H1). now destruct (run ins s1).
Qed.

(** X17. In any session that contains no joinGame message, whatever else
    is received and whichever intervals fire, every registered room holds at
    most two players. *)
Theorem two_players_without_joinGame ins :
  forallb not_joinGame ins = true -> rooms_le2 (state_after ins).
Proof.
  intros Hn. apply heap_le2_rooms. apply run_le2; auto. constructor.
Qed.

Lemma two_players_without_joinGame_witness :
  rooms_le2
    (state_after (lobby ++ [Recv "s3" rnd3 (JoinRoom "Carol" "AB12");
                            Recv "s3" rnd3 (JoinRandomRoom "Carol")])).
Proof.
  apply two_players_without_joinGame. reflexivity.
Defined.

(** ** Sword messages keep the rest of the player *)

(** X18. swordSwing stores the hitbox the message carries and swordRelease
    leaves the stored hitbox as it is (it is never cleared, so snapshots
    after a release still show the hitbox of the last swing); neither
    message changes the player's position, velocity, health or death flag,
    nor any other player; each is relayed to the other sockets of the group
    only. *)
Theorem sword_messages_frame s sid rnd code pid hb ref room p :
  rooms_get s code = Some (ref, room) ->
  OMap.get pid (Room.players room) = Some p ->
  (exists room',
     rooms_get (fst (handle sid rnd (SwordSwing code pid hb) s)) code = Some (ref, room') /\
     OMap.get pid (Room.players room') =
       Some (Player.mk (Player.id p) (Player.name p) (Player.socketId p)
               (Player.x p) (Player.y p) (Player.velocityX p) (Player.velocityY p)
               (Player.health p) (Player.isDead p)
               (Some (Shield.mk false None)) (Some (Sword.mk true true (Some 0))) hb) /\
     (forall pid', pid' <> pid ->
        OMap.get pid' (Room.players room') = OMap.get pid' (Room.players room)) /\
     snd (handle sid rnd (SwordSwing code pid hb) s) =
       [(ToOthers sid code, EvSwordSwing pid hb)]) /\
  (exists room',
     rooms_get (fst (handle sid rnd (SwordRelease code pid) s)) code = Some (ref, room') /\
     OMap.get pid (Room.players room') =
       Some (Player.mk (Player.id p) (Player.name p) (Player.socketId p)
               (Player.x p) (Player.y p) (Player.velocityX p) (Player.velocityY p)
               (Player.health p) (Player.isDead p)
               (Some (Shield.mk true None)) (Some (Sword.mk false false None))
               (Player.swordHitbox p)) /\
     (forall pid', pid' <> pid ->
        OMap.get pid' (Room.players room') = OMap.get pid' (Room.players room)) /\
     snd (handle sid rnd (SwordRelease code pid) s) =
       [(ToOthers sid code, EvSwordRelease pid)]).
Proof.
  intros Hr Hp; simpl. split.
  - rewrite (swordSwing_player _ _ _ _ _ _ _ _ Hr Hp); simpl.
    eexists. split; [apply (rooms_get_put_room _ _ _ _ _ Hr)|]. simpl.
    split; [apply get_set_eq|]. split; [|reflexivity].
    intros pid' Hne; apply get_set_neq; congruence.
  - rewrite (swordRelease_player _ _ _ _ _ _ _ Hr Hp); simpl.
    eexists. split; [apply (rooms_get_put_room _ _ _ _ _ Hr)|]. simpl.
    split; [apply get_set_eq|]. split; [|reflexivity].
    intros pid' Hne; apply get_set_neq; congruence.
Qed.

Lemma sword_messages_frame_witness :
  exists room',
    rooms_get
      (fst (handle "s2" rnd2 (SwordRelease "AB12" "p2")
              (fst (handle "s2" rnd2
                      (SwordSwing "AB12" "p2" (Some (Hitbox.mk true 10 20 3))) st_lobby))))
      "AB12" = Some (0%nat, room') /\
    exists q,
      OMap.get "p2" (Room.players room') = Some q /\
      Player.swordHitbox q = Some (Hitbox.mk true 10 20 3).
Proof.
  destruct (sword_messages_frame
              (fst (handle "s2" rnd2
                      (SwordSwing "AB12" "p2" (Some (Hitbox.mk true 10 20 3))) st_lobby))
              "s2" rnd2 "AB12" "p2" None 0%nat _ _ eq_refl eq_refl)
    as (_ & room' & H1 & H2 & _).
  exists room'. split; [exact H1|]. eexists. split; [exact H2|reflexivity].
Defined.

(** ** A socket that binds twice *)

Lemma disconnect_unbinds s sid :
  OMap.get sid (players (fst (on_disconnect sid s))) = None.
Proof.
  unfold on_disconnect.
  change (players (socket_leaveAll sid s)) with (players s).
  destruct (OMap.get sid (players s)) as [b|] eqn:Hb; [|exact Hb].
  destruct (rooms_get _ _) as [[ref room]|]; simpl; [|apply get_delete_eq].
  destruct (_ =? _)%nat; simpl; apply get_delete_eq.
Qed.

Lemma disconnect_other_rooms s sid b code' :
  consistent s -> OMap.get sid (players s) = Some b ->
  code' <> Binding.roomCode b ->
  room_of (fst (on_disconnect sid s)) code' = room_of s code'.
Proof.
  intros (_ & (_ & Hv & _) & _) Hb Hne. unfold on_disconnect.
  change (players (socket_leaveAll sid s)) with (players s). rewrite Hb.
  change (rooms_get (socket_leaveAll sid s) (Binding.roomCode b))
    with (rooms_get s (Binding.roomCode b)).
  destruct (rooms_get s (Binding.roomCode b)) as [[ref room]|] eqn:Hr; [|reflexivity].
  destruct (rooms_get_inv _ _ _ _ Hr) as [Hg Hn].
  destruct (_ =? _)%nat; unfold room_of, rooms_get; simpl;
    rewrite ?get_delete_neq by congruence;
    (destruct (OMap.get code' (rooms s)) as [ref'|] eqn:Hg'; auto;
     rewrite nth_error_upd_nth_neq; auto;
     intros ->; apply Hne; eapply get_value_injective; eauto).
Qed.

Lemma openRoom_other_rooms s sid rnd pname code' :
  code' <> generateRoomCode rnd ->
  (exists r, room_of s code' = Some r) ->
  room_of (openRoom sid rnd pname s) code' = room_of s code'.
Proof.
  intros Hne [r Hr]. unfold room_of in *.
  destruct (rooms_get s code') as [[ref room]|] eqn:Hg; [|discriminate].
  destruct (rooms_get_inv _ _ _ _ Hg) as [Hg1 Hn].
  erewrite rooms_get_intro; [reflexivity| |]; unfold openRoom; simpl.
  - rewrite get_set_neq; eauto.
  - rewrite nth_error_app1; eauto using nth_error_some_lt.
Qed.

(** X19. A socket has one binding, the latest: when a socket that is bound
    to a player of one room creates another room and then disconnects, the
    disconnect removes only the player of the room created last; the player
    it had in the first room stays there, and the socket ends unbound. *)
Theorem rebinding_leaves_player_behind s sid rnd pname b p :
  consistent s ->
  OMap.get sid (players s) = Some b ->
  player_of s (Binding.roomCode b) (Binding.playerId b) = Some p ->
  generateRoomCode rnd <> Binding.roomCode b ->
  let s1 := fst (handle sid rnd (CreateRoom pname) s) in
  let s2 := fst (handle sid rnd Disconnect s1) in
  OMap.get sid (players s1) = Some (Binding.mk (generatePlayerId rnd) (generateRoomCode rnd)) /\
  OMap.get sid (players s2) = None /\
  player_of s2 (Binding.roomCode b) (Binding.playerId b) = Some p /\
  OMap.get (generateRoomCode rnd) (rooms s2) = None.
Proof.
  intros Hs Hb Hp Hne; simpl.
  assert (Hb1 : OMap.get sid (players (openRoom sid rnd pname s))
                = Some (Binding.mk (generatePlayerId rnd) (generateRoomCode rnd)))
    by (unfold openRoom; simpl; apply get_set_eq).
  split; [exact Hb1|]. split; [apply disconnect_unbinds|].
  split.
  - unfold player_of in *.
    rewrite (disconnect_other_rooms _ _ _ _ (consistent_openRoom _ sid rnd pname Hs) Hb1)
      by (simpl; congruence).
    rewrite openRoom_other_rooms; auto.
    destruct (room_of s (Binding.roomCode b)); [eauto|discriminate].
  - unfold on_disconnect.
    change (players (socket_leaveAll sid (openRoom sid rnd pname s)))
      with (players (openRoom sid rnd pname s)).
    rewrite Hb1. cbn [Binding.roomCode Binding.playerId].
    assert (Hr : rooms_get (socket_leaveAll sid (openRoom sid rnd pname s))
                   (generateRoomCode rnd)
                 = Some (List.length (heap s),
                         Room.mk (generateRoomCode rnd)
                           [(generatePlayerId rnd,
                             Player.fresh (generatePlayerId rnd) pname sid)]
                           false 3 None)).
    { unfold rooms_get, openRoom; simpl.
      now rewrite get_set_eq, nth_error_app_length. }
    rewrite Hr. simpl. rewrite String.eqb_refl. simpl. apply get_delete_eq.
Qed.

Lemma rebinding_leaves_player_behind_witness :
  player_of
    (fst (handle "s1" rnd3 Disconnect (fst (handle "s1" rnd3 (CreateRoom "Alice") st_lobby))))
    "AB12" "p1" = Some (Player.fresh "p1" "Alice" "s1") /\
  OMap.get "s1"
    (players
       (fst (handle "s1" rnd3 Disconnect
               (fst (handle "s1" rnd3 (CreateRoom "Alice") st_lobby))))) = None.
Proof.
  destruct (rebinding_leaves_player_behind st_lobby "s1" rnd3 "Alice"
              (Binding.mk "p1" "AB12") (Player.fresh "p1" "Alice" "s1")
              lobby_consistent eq_refl eq_refl ltac:(discriminate))
    as (_ & H1 & H2 & _).
  split; [exact H2|exact H1].
Defined.

(** ** Matchmaking pairs players *)

Lemma In_set {V} x k (v : V) (m : OMap.t V) :
  In x (OMap.set k v m) -> x = (k, v) \/ In x m.
Proof.
  induction m as [|[k0 v0] m IH]; simpl.
  - intros [H|[]]; auto.
  - destruct (String.eqb k k0); simpl; intros [H|H]; auto.
    destruct (IH H); auto.
Qed.

Lemma findOpenRoom_none_intro hp rs :
  (forall c r rm, In (c, r) rs -> nth_error hp r = Some rm -> is_open rm = false) ->
  findOpenRoom hp rs = None.
Proof.
  induction rs as [|[c r] rs IH]; simpl; auto.
  intros H. destruct (nth_error hp r) as [rm|] eqn:Hr.
  - fold (is_open rm). rewrite (H c r rm (or_introl eq_refl) Hr).
    apply IH. intros; eapply H; eauto.
  - apply IH. intros; eapply H; eauto.
Qed.

Lemma findOpenRoom_set_new hp rs code room :
  (forall c r, In (c, r) rs ->
     exists rm, nth_error hp r = Some rm /\ is_open rm = false) ->
  is_open room = true ->
  findOpenRoom (hp ++ [room]) (OMap.set code (List.length hp) rs) = Some code.
Proof.
  intros Hrs Ho. induction rs as [|[c r] rs IH]; simpl.
  - rewrite nth_error_app_length. fold (is_open room). now rewrite Ho.
  - destruct (String.eqb code c); simpl.
    + rewrite nth_error_app_length. fold (is_open room). now rewrite Ho.
    + destruct (Hrs c r (or_introl eq_refl)) as (rm & Hr & Hc).
      rewrite nth_error_app1 by eauto using nth_error_some_lt.
      rewrite Hr. fold (is_open rm). rewrite Hc.
      apply IH. intros; eapply Hrs; right; eauto.
Qed.

(** X20. Matchmaking pairs players: when no room is open, a joinRandomRoom
    creates a room that becomes the one the scan finds; the next
    joinRandomRoom (under a different player id) is answered roomJoined for
    that same room, which then holds exactly the two players in arrival
    order and is no longer open, so the scan finds nothing again; the room
    is not started and no interval has been created. *)
Theorem matchmaking_pairs s sid1 rndA n1 sid2 rndB n2 :
  consistent s ->
  findOpenRoom (heap s) (rooms s) = None ->
  generatePlayerId rndB <> generatePlayerId rndA ->
  let code := generateRoomCode rndA in
  let s1 := fst (handle sid1 rndA (JoinRandomRoom n1) s) in
  let s2 := fst (handle sid2 rndB (JoinRandomRoom n2) s1) in
  findOpenRoom (heap s1) (rooms s1) = Some code /\
  snd (handle sid2 rndB (JoinRandomRoom n2) s1) =
    [(ToSocket sid2, EvRoomJoined code (generatePlayerId rndB))] /\
  room_of s2 code =
    Some (Room.mk code
            [(generatePlayerId rndA, Player.fresh (generatePlayerId rndA) n1 sid1);
             (generatePlayerId rndB, Player.fresh (generatePlayerId rndB) n2 sid2)]
            false 3 None) /\
  findOpenRoom (heap s2) (rooms s2) = None /\
  timers s2 = timers s.
Proof.
  intros Hs Hnone Hpid; simpl.
  destruct Hs as (Hheap & (Hk & Hv & Hreg) & Ht).
  assert (Hclosed : forall c r, In (c, r) (rooms s) ->
            exists rm, nth_error (heap s) r = Some rm /\ is_open rm = false).
  { intros c r Hin. rewrite Forall_forall in Hreg.
    destruct (Hreg _ Hin) as (rm & Hrm & _); simpl in Hrm.
    exists rm; split; auto. eapply findOpenRoom_none; eauto. }
  assert (Hs1 : fst (on_joinRandomRoom sid1 rndA n1 s) = openRoom sid1 rndA n1 s)
    by (unfold on_joinRandomRoom; now rewrite Hnone).
  rewrite !Hs1.
  set (room1 := Room.mk (generateRoomCode rndA)
                  [(generatePlayerId rndA, Player.fresh (generatePlayerId rndA) n1 sid1)]
                  false 3 None).
  assert (H1 : findOpenRoom (heap (openRoom sid1 rndA n1 s))
                 (rooms (openRoom sid1 rndA n1 s)) = Some (generateRoomCode rndA)).
  { unfold openRoom; simpl. apply findOpenRoom_set_new; auto. }
  assert (Hr1 : rooms_get (openRoom sid1 rndA n1 s) (generateRoomCode rndA)
                = Some (List.length (heap s), room1)).
  { unfold rooms_get, openRoom; simpl. now rewrite get_set_eq, nth_error_app_length. }
  split; [exact H1|].
  unfold on_joinRandomRoom. rewrite H1. unfold joinRoom. rewrite Hr1. simpl.
  apply String.eqb_neq in Hpid. rewrite Hpid.
  split; [reflexivity|]. split; [|split; [|reflexivity]].
  - unfold room_of, rooms_get; simpl. rewrite get_set_eq.
    rewrite nth_error_upd_nth_eq by (rewrite length_app; simpl; lia).
    reflexivity.
  - apply findOpenRoom_none_intro. intros c r rm Hin Hrm.
    apply In_set in Hin as [Hin|Hin].
    + inversion Hin; subst c r.
      rewrite nth_error_upd_nth_eq in Hrm by (rewrite length_app; simpl; lia).
      inversion Hrm; subst rm. reflexivity.
    + destruct (Hclosed c r Hin) as (rm0 & Hrm0 & Hc0).
      pose proof (nth_error_some_lt _ _ _ Hrm0) as Hlt.
      rewrite nth_error_upd_nth_neq in Hrm by lia.
      rewrite nth_error_app1 in Hrm by assumption. congruence.
Qed.

Lemma matchmaking_pairs_witness :
  room_of
    (fst (handle "s2" rnd2 (JoinRandomRoom "Bob")
            (fst (handle "s1" rnd1 (JoinRandomRoom "Alice") init)))) "AB12"
  = Some (Room.mk "AB12" [("p1", Player.fresh "p1" "Alice" "s1");
                          ("p2", Player.fresh "p2" "Bob" "s2")] false 3 None).
Proof.
  apply (matchmaking_pairs init "s1" rnd1 "Alice" "s2" rnd2 "Bob"
           init_consistent eq_refl ltac:(discriminate)).
Defined.
